(** * Telegram exec-approval coordination: codec, filter and pending registry

    A shallow embedding of [src/telegram/monitor/exec-approvals.ts]:
    the callback-data codec ([buildExecApprovalCallbackData],
    [parseExecApprovalCallbackData]), the filter ([shouldHandle]) and the
    [TelegramExecApprovalHandler] state machine with its three maps
    ([pending], [requestCache], [shortIdMap]), the timers it arms and the
    calls it makes to the Telegram API and to the gateway.

    JavaScript strings are modelled as [string]; a character stands for
    one code unit.  [null] and [undefined] are kept apart from strings
    where the source can receive them.

    A method runs without interruption up to its first [await].
    [handleApprovalResolved], [handleApprovalTimeout] and
    [handleCallbackQuery] touch the handler's fields only before their
    first [await], so each is one transition, given how the awaited call
    settles.  [handleApprovalRequested] awaits [api.sendMessage] inside
    its loop: it is a transition up to the first send, and one more for
    every send that settles, between which other transitions can take
    place. *)

From Stdlib Require Import String Ascii List ZArith QArith Bool Lia DecimalString.
From stdpp Require Import base option list gmap strings.

Local Open Scope string_scope.
Local Open Scope list_scope.

(** ** JavaScript string primitives used by the source *)

Module Js.

(** [s.slice(0, n)]: the first [n] code units, the whole string when it
    is shorter. *)
Fixpoint slice0 (n : nat) (s : string) : string :=
  match n, s with
  | S n', String c s' => String c (slice0 n' s')
  | _, _ => EmptyString
  end.

(** [s.startsWith(p)]. *)
Fixpoint startsWith (p s : string) : bool :=
  match p, s with
  | EmptyString, _ => true
  | String a p', String b s' => if Ascii.eqb a b then startsWith p' s' else false
  | String _ _, EmptyString => false
  end.

(** [s.includes(p)]: [p] occurs in [s] as a contiguous substring. *)
Fixpoint includes (s p : string) : bool :=
  startsWith p s ||
  match s with
  | EmptyString => false
  | String _ s' => includes s' p
  end.

(** [s.split(sep)] for a one-character separator: always at least one
    field, [n] separators give [n + 1] fields, empty fields are kept. *)
Fixpoint split (sep : ascii) (s : string) : list string :=
  match s with
  | EmptyString => [EmptyString]
  | String c s' =>
      if Ascii.eqb c sep then EmptyString :: split sep s'
      else match split sep s' with
           | f :: fs => String c f :: fs
           | [] => [String c EmptyString]
           end
  end.

(** Truthiness of a string: only the empty string is falsy. *)
Definition truthy (s : string) : bool :=
  match s with EmptyString => false | String _ _ => true end.

(** [c] does not occur in [s]. *)
Fixpoint lacks (c : ascii) (s : string) : bool :=
  match s with
  | EmptyString => true
  | String a s' => negb (Ascii.eqb a c) && lacks c s'
  end.

End Js.

(** ** Callback codec *)

(** [ExecApprovalDecision] of [infra/exec-approvals]: the three string
    literals ["allow-once"], ["allow-always"], ["deny"]. *)
Inductive ExecApprovalDecision := AllowOnce | AllowAlways | Deny.

Definition EXEC_APPROVAL_PREFIX : string := "ea".

Definition colon : ascii := ":"%char.

Definition actionChar (action : ExecApprovalDecision) : string :=
  match action with
  | AllowOnce => "o"
  | AllowAlways => "a"
  | Deny => "d"
  end.

(** The string literal a decision is in the source. *)
Definition decisionString (d : ExecApprovalDecision) : string :=
  match d with
  | AllowOnce => "allow-once"
  | AllowAlways => "allow-always"
  | Deny => "deny"
  end.

Definition buildExecApprovalCallbackData
    (approvalId : string) (action : ExecApprovalDecision) : string :=
  let shortId := Js.slice0 8 approvalId in
  EXEC_APPROVAL_PREFIX ++ ":" ++ shortId ++ ":" ++ actionChar action.

(** The argument of [parseExecApprovalCallbackData] is typed [string],
    but the tests pass [null] and [undefined] too. *)
Inductive JsData :=
| JsUndefined
| JsNull
| JsStr (s : string).

Definition actionOfChar (c : string) : option ExecApprovalDecision :=
  if String.eqb c "o" then Some AllowOnce
  else if String.eqb c "a" then Some AllowAlways
  else if String.eqb c "d" then Some Deny
  else None.

Definition parseExecApprovalCallbackData
    (data : JsData) : option (string * ExecApprovalDecision) :=
  match data with
  | JsUndefined | JsNull => None
  | JsStr data =>
      if negb (Js.truthy data) || negb (Js.startsWith (EXEC_APPROVAL_PREFIX ++ ":") data)
      then None
      else
        let parts := Js.split colon data in
        if negb (length parts =? 3)%nat then None
        else
          let shortId := nth 1 parts "" in
          let actionChar := nth 2 parts "" in
          match actionOfChar actionChar with
          | None => None
          | Some action =>
              if negb (Js.truthy shortId) then None
              else Some (shortId, action)
          end
  end.

Definition isExecApprovalCallbackData (data : JsData) : bool :=
  match data with
  | JsUndefined | JsNull => false
  | JsStr data => Js.startsWith (EXEC_APPROVAL_PREFIX ++ ":") data
  end.

(** ** Requests and configuration *)

(** The [request] object of an [ExecApprovalRequest]; optional fields
    ([string | null | undefined]) are [None] when null or absent. *)
Record RequestDetails := {
  command : string;
  cwd : option string;
  host : option string;
  security : option string;
  ask : option string;
  agentId : option string;
  resolvedPath : option string;
  sessionKey : option string;
}.

Record ExecApprovalRequest := {
  req_id : string;
  request : RequestDetails;
  createdAtMs : Z;
  expiresAtMs : Z;
}.

Record ExecApprovalResolved := {
  res_id : string;
  decision : ExecApprovalDecision;
  resolvedBy : option string;
  ts : Z;
}.

(** An entry of [approvers] is a string or a number. *)
Inductive Approver :=
| ApproverStr (s : string)
| ApproverNum (n : Z).

(** Modelled from the spec: the type [TelegramExecApprovalConfig] is
    declared in [config/types.telegram], which is not part of the sources
    at hand; the spec gives the configuration surface as
    [{ enabled, approvers, agentFilter?, sessionFilter? }], and the tests
    build configurations without [approvers].  An absent [enabled] is
    [false]. *)
Record TelegramExecApprovalConfig := {
  enabled : bool;
  approvers : option (list Approver);
  agentFilter : option (list string);
  sessionFilter : option (list string);
}.

(** ** Exceptions *)

(** The completion of a JavaScript expression: a value or a thrown
    error. *)
Inductive Completion (A : Type) :=
| Normal (a : A)
| Throw (err : string).
Arguments Normal {A} a.
Arguments Throw {A} err.

(** [try { body } catch { handler }]. *)
Definition try_catch {A} (body : Completion A) (handler : Completion A) : Completion A :=
  match body with
  | Normal a => Normal a
  | Throw _ => handler
  end.

(** [l.some(cb)]: stops at the first [true]; a throwing callback aborts
    the iteration. *)
Fixpoint some {A} (cb : A -> Completion bool) (l : list A) : Completion bool :=
  match l with
  | [] => Normal false
  | x :: l' =>
      match cb x with
      | Normal true => Normal true
      | Normal false => some cb l'
      | Throw e => Throw e
      end
  end.

(** [o?.length] as a condition: present and not empty. *)
Definition has_length {A} (o : option (list A)) : bool :=
  match o with
  | Some (_ :: _) => true
  | _ => false
  end.

(** Truthiness of an optional string. *)
Definition truthy_opt (o : option string) : bool :=
  match o with
  | Some s => Js.truthy s
  | None => false
  end.

(** ** Filter *)

Section Filter.

(** The regular-expression engine of the runtime: [new RegExp(p)] throws
    a [SyntaxError] on an invalid pattern ([RegExp_new p = None]);
    [RegExp_test re s] is [re.test(s)] for a regular expression without
    flags. *)
Variable RegExp : Type.
Variable RegExp_new : string -> option RegExp.
Variable RegExp_test : RegExp -> string -> bool.

Variable config : TelegramExecApprovalConfig.

(** The callback of [sessionFilter.some]:
    [try { return session.includes(p) || new RegExp(p).test(session) }
     catch { return session.includes(p) }]. *)
Definition sessionPatternMatches (session p : string) : Completion bool :=
  try_catch
    (if Js.includes session p then Normal true
     else match RegExp_new p with
          | Some re => Normal (RegExp_test re session)
          | None => Throw "SyntaxError"
          end)
    (Normal (Js.includes session p)).

Definition shouldHandle (req : ExecApprovalRequest) : Completion bool :=
  if negb (enabled config) then Normal false
  else if negb (has_length (approvers config)) then Normal false
  else if has_length (agentFilter config)
          && (negb (truthy_opt (agentId (request req)))
              || negb (existsb (String.eqb (default "" (agentId (request req))))
                               (default [] (agentFilter config))))
  then Normal false
  else if has_length (sessionFilter config) then
    if negb (truthy_opt (sessionKey (request req))) then Normal false
    else
      let session := default "" (sessionKey (request req)) in
      match some (sessionPatternMatches session) (default [] (sessionFilter config)) with
      | Normal matches => if negb matches then Normal false else Normal true
      | Throw e => Throw e
      end
  else Normal true.

End Filter.

(** ** The handler's state and the world around it *)

Record PendingApproval := {
  telegramMessageId : Z;
  telegramChatId : string;
  timeoutId : nat;
}.

(** The texts the handler sends, by the function that renders them;
    [formatExecApprovalMessage] reads the clock. *)
Inductive MessageText :=
| ExecApprovalMessage (req : ExecApprovalRequest) (now : Z)
| ResolvedMessage (req : ExecApprovalRequest) (d : ExecApprovalDecision)
    (by_ : option string)
| ExpiredMessage (req : ExecApprovalRequest).

(** An inline keyboard: rows of buttons, each button by its
    [callback_data]. *)
Definition buildInlineKeyboard (approvalId : string) : list (list string) :=
  [[buildExecApprovalCallbackData approvalId AllowOnce;
    buildExecApprovalCallbackData approvalId AllowAlways;
    buildExecApprovalCallbackData approvalId Deny]].

(** What the handler does to its collaborators. *)
Inductive Effect :=
| SendMessage (chatId : string) (text : MessageText) (reply_markup : list (list string))
| EditMessageText (chatId : string) (messageId : Z) (text : MessageText)
    (reply_markup : list (list string))
| GatewayStart
| GatewayStop
| GatewayRequest (approvalId : string) (d : ExecApprovalDecision)
| LogDebug (msg : string)
| LogError (msg : string).

(** How an awaited call settles. *)
Inductive Outcome :=
| Fulfilled
| Rejected (err : string).

(** How [api.sendMessage] settles: with a message (possibly none, and
    with its [message_id]) or with an error. *)
Inductive SendOutcome :=
| SendFulfilled (message_id : option Z)
| SendRejected (err : string).

(** An activation of [handleApprovalRequested] suspended at
    [await api.sendMessage(chatId, ...)], with the approvers the loop has
    still to visit. *)
Record Suspended := {
  sus_request : ExecApprovalRequest;
  sus_messageText : MessageText;
  sus_chatId : string;
  sus_rest : list Approver;
}.

(** The fields of [TelegramExecApprovalHandler] ([gatewayClient] is
    [true] when the field is not [null]), the timeouts armed in the
    runtime (handle to the approval id its callback passes to
    [handleApprovalTimeout], and the delay) and the suspended
    activations. *)
Record State := {
  gatewayClient : bool;
  pending : gmap string PendingApproval;
  requestCache : gmap string ExecApprovalRequest;
  shortIdMap : gmap string string;
  started : bool;
  timers : gmap nat (string * Z);
  nextTimeout : nat;
  suspended : list Suspended;
}.

Definition initial : State := {|
  gatewayClient := false;
  pending := ∅;
  requestCache := ∅;
  shortIdMap := ∅;
  started := false;
  timers := ∅;
  nextTimeout := 0;
  suspended := [];
|}.

Definition set_gatewayClient (v : bool) (s : State) : State :=
  {| gatewayClient := v; pending := pending s; requestCache := requestCache s;
     shortIdMap := shortIdMap s; started := started s; timers := timers s;
     nextTimeout := nextTimeout s; suspended := suspended s |}.

Definition set_pending (f : gmap string PendingApproval -> gmap string PendingApproval)
    (s : State) : State :=
  {| gatewayClient := gatewayClient s; pending := f (pending s);
     requestCache := requestCache s; shortIdMap := shortIdMap s;
     started := started s; timers := timers s; nextTimeout := nextTimeout s;
     suspended := suspended s |}.

Definition set_requestCache
    (f : gmap string ExecApprovalRequest -> gmap string ExecApprovalRequest)
    (s : State) : State :=
  {| gatewayClient := gatewayClient s; pending := pending s;
     requestCache := f (requestCache s); shortIdMap := shortIdMap s;
     started := started s; timers := timers s; nextTimeout := nextTimeout s;
     suspended := suspended s |}.

Definition set_shortIdMap (f : gmap string string -> gmap string string)
    (s : State) : State :=
  {| gatewayClient := gatewayClient s; pending := pending s;
     requestCache := requestCache s; shortIdMap := f (shortIdMap s);
     started := started s; timers := timers s; nextTimeout := nextTimeout s;
     suspended := suspended s |}.

Definition set_started (v : bool) (s : State) : State :=
  {| gatewayClient := gatewayClient s; pending := pending s;
     requestCache := requestCache s; shortIdMap := shortIdMap s; started := v;
     timers := timers s; nextTimeout := nextTimeout s; suspended := suspended s |}.

Definition set_timers (f : gmap nat (string * Z) -> gmap nat (string * Z))
    (s : State) : State :=
  {| gatewayClient := gatewayClient s; pending := pending s;
     requestCache := requestCache s; shortIdMap := shortIdMap s;
     started := started s; timers := f (timers s); nextTimeout := nextTimeout s;
     suspended := suspended s |}.

Definition set_nextTimeout (v : nat) (s : State) : State :=
  {| gatewayClient := gatewayClient s; pending := pending s;
     requestCache := requestCache s; shortIdMap := shortIdMap s;
     started := started s; timers := timers s; nextTimeout := v;
     suspended := suspended s |}.

Definition set_suspended (f : list Suspended -> list Suspended) (s : State) : State :=
  {| gatewayClient := gatewayClient s; pending := pending s;
     requestCache := requestCache s; shortIdMap := shortIdMap s;
     started := started s; timers := timers s; nextTimeout := nextTimeout s;
     suspended := f (suspended s) |}.

(** ** A state-and-trace monad for the handler's methods *)

Record Ran (A : Type) := ran {
  value : A;
  after : State;
  emitted : list Effect;
}.
Arguments ran {A} value after emitted.
Arguments value {A} r.
Arguments after {A} r.
Arguments emitted {A} r.

Definition M (A : Type) : Type := State -> Ran A.

Definition ret {A} (a : A) : M A := fun s => ran a s [].

Definition bind {A B} (m : M A) (k : A -> M B) : M B :=
  fun s =>
    let r1 := m s in
    let r2 := k (value r1) (after r1) in
    ran (value r2) (after r2) (emitted r1 ++ emitted r2).

Definition gets {A} (f : State -> A) : M A := fun s => ran (f s) s [].
Definition modify (f : State -> State) : M unit := fun s => ran tt (f s) [].
Definition emit (e : Effect) : M unit := fun s => ran tt s [e].

Declare Scope handler_scope.
Delimit Scope handler_scope with handler.
Notation "'let*' x := m 'in' k" := (bind m (fun x => k))
  (at level 10, x name, m at level 100, k at level 200) : handler_scope.
Notation "m ;; k" := (bind m (fun _ => k))
  (at level 100, k at level 200, right associativity) : handler_scope.
Local Open Scope handler_scope.

Definition logDebug (msg : string) : M unit := emit (LogDebug msg).
Definition logError (msg : string) : M unit := emit (LogError msg).

(** [setTimeout(() => handleApprovalTimeout(approvalId), ms)]: a fresh
    handle. *)
Definition setTimeout (approvalId : string) (ms : Z) : M nat :=
  let* h := gets nextTimeout in
  modify (set_timers <[h := (approvalId, ms)]>);;
  modify (set_nextTimeout (S h));;
  ret h.

Definition clearTimeout (h : nat) : M unit :=
  modify (set_timers (delete h)).

(** ** The methods of [TelegramExecApprovalHandler] *)

Section Handler.

Variable RegExp : Type.
Variable RegExp_new : string -> option RegExp.
Variable RegExp_test : RegExp -> string -> bool.

(** [String(n)] for a number [n]. *)
Variable String_of_number : Z -> string.

(** [this.opts.config]; it is never assigned. *)
Variable config : TelegramExecApprovalConfig.

Definition String_of (a : Approver) : string :=
  match a with
  | ApproverStr s => s
  | ApproverNum n => String_of_number n
  end.

(** [this.opts.config.approvers ?? []]. *)
Definition approvers_or_empty : list Approver := default [] (approvers config).

Definition start : M unit :=
  let* st := gets started in
  if st then ret tt
  else
    modify (set_started true);;
    if negb (enabled config) then logDebug "telegram exec approvals: disabled"
    else if negb (has_length (approvers config))
    then logDebug "telegram exec approvals: no approvers configured"
    else
      logDebug "telegram exec approvals: starting handler";;
      modify (set_gatewayClient true);;
      emit GatewayStart.

Definition stop : M unit :=
  let* st := gets started in
  if negb st then ret tt
  else
    modify (set_started false);;
    let* ps := gets pending in
    modify (set_timers (fun t => map_fold (fun _ p t' => delete (timeoutId p) t') t ps));;
    modify (set_pending (fun _ => ∅));;
    modify (set_requestCache (fun _ => ∅));;
    modify (set_shortIdMap (fun _ => ∅));;
    let* client := gets gatewayClient in
    (if client then emit GatewayStop else ret tt);;
    modify (set_gatewayClient false);;
    logDebug "telegram exec approvals: stopped".

(** The head of the [for (const approver of approvers)] loop: send to
    the next approver and suspend at the [await], or leave the loop. *)
Definition notifyNext (req : ExecApprovalRequest) (messageText : MessageText)
    (rest : list Approver) : M (option Suspended) :=
  match rest with
  | [] => ret None
  | approver :: rest' =>
      let chatId := String_of approver in
      emit (SendMessage chatId messageText (buildInlineKeyboard (req_id req)));;
      ret (Some {| sus_request := req; sus_messageText := messageText;
                   sus_chatId := chatId; sus_rest := rest' |})
  end.

(** [handleApprovalRequested] up to its first [await]. *)
Definition handleApprovalRequested (req : ExecApprovalRequest) (now : Z) : M unit :=
  match shouldHandle RegExp RegExp_new RegExp_test config req with
  | Normal true =>
      logDebug ("telegram exec approvals: received request " ++ req_id req);;
      modify (set_requestCache <[req_id req := req]>);;
      let shortId := Js.slice0 8 (req_id req) in
      modify (set_shortIdMap <[shortId := req_id req]>);;
      let messageText := ExecApprovalMessage req now in
      let* next := notifyNext req messageText approvers_or_empty in
      match next with
      | Some task => modify (set_suspended (fun l => l ++ [task]))
      | None => ret tt
      end
  | _ => ret tt
  end.

(** The [k]-th suspended activation resumes when its [sendMessage]
    settles: the rest of the loop body, then the head of the loop
    again. *)
Definition resumeApprovalRequested (k : nat) (r : SendOutcome) (now : Z) : M unit :=
  let* task := gets (fun s => suspended s !! k) in
  match task with
  | None => ret tt
  | Some task =>
      let req := sus_request task in
      let chatId := sus_chatId task in
      match r with
      | SendRejected err =>
          logError ("telegram exec approvals: failed to notify user " ++ chatId ++ ": " ++ err)
      | SendFulfilled message_id =>
          match message_id with
          | Some mid =>
              if (mid =? 0)%Z
              then logError ("telegram exec approvals: failed to send message to user " ++ chatId)
              else
                let timeoutMs := Z.max 0 (expiresAtMs req - now) in
                let* timeoutId := setTimeout (req_id req) timeoutMs in
                modify (set_pending <[req_id req :=
                  {| telegramMessageId := mid; telegramChatId := chatId;
                     timeoutId := timeoutId |}]>);;
                logDebug ("telegram exec approvals: sent approval " ++ req_id req
                          ++ " to user " ++ chatId)
          | None =>
              logError ("telegram exec approvals: failed to send message to user " ++ chatId)
          end
      end;;
      let* next := notifyNext req (sus_messageText task) (sus_rest task) in
      match next with
      | Some task' => modify (set_suspended <[k := task']>)
      | None => modify (set_suspended (delete k))
      end
  end.

(** [updateMessage]: the edit always removes the buttons; a failed edit
    is logged. *)
Definition updateMessage (chatId : string) (messageId : Z) (text : MessageText)
    (edit : Outcome) : M unit :=
  emit (EditMessageText chatId messageId text []);;
  match edit with
  | Fulfilled => ret tt
  | Rejected err => logError ("telegram exec approvals: failed to update message: " ++ err)
  end.

Definition handleApprovalResolved (resolved : ExecApprovalResolved) (edit : Outcome) : M unit :=
  let* entry := gets (fun s => pending s !! res_id resolved) in
  match entry with
  | None => ret tt
  | Some entry =>
      clearTimeout (timeoutId entry);;
      modify (set_pending (delete (res_id resolved)));;
      let* req := gets (fun s => requestCache s !! res_id resolved) in
      modify (set_requestCache (delete (res_id resolved)));;
      let shortId := Js.slice0 8 (res_id resolved) in
      modify (set_shortIdMap (delete shortId));;
      match req with
      | None => ret tt
      | Some req =>
          logDebug ("telegram exec approvals: resolved " ++ res_id resolved ++ " with "
                    ++ decisionString (decision resolved));;
          updateMessage (telegramChatId entry) (telegramMessageId entry)
            (ResolvedMessage req (decision resolved) (resolvedBy resolved)) edit
      end
  end.

Definition handleApprovalTimeout (approvalId : string) (edit : Outcome) : M unit :=
  let* entry := gets (fun s => pending s !! approvalId) in
  match entry with
  | None => ret tt
  | Some entry =>
      modify (set_pending (delete approvalId));;
      let* req := gets (fun s => requestCache s !! approvalId) in
      modify (set_requestCache (delete approvalId));;
      let shortId := Js.slice0 8 approvalId in
      modify (set_shortIdMap (delete shortId));;
      match req with
      | None => ret tt
      | Some req =>
          logDebug ("telegram exec approvals: timeout for " ++ approvalId);;
          updateMessage (telegramChatId entry) (telegramMessageId entry)
            (ExpiredMessage req) edit
      end
  end.

(** [gw] is how the awaited [gatewayClient.request] settles. *)
Definition resolveApproval (approvalId : string) (d : ExecApprovalDecision)
    (gw : Outcome) : M bool :=
  let* client := gets gatewayClient in
  if negb client then
    logError "telegram exec approvals: gateway client not connected";;
    ret false
  else
    logDebug ("telegram exec approvals: resolving " ++ approvalId ++ " with "
              ++ decisionString d);;
    emit (GatewayRequest approvalId d);;
    match gw with
    | Fulfilled =>
        logDebug ("telegram exec approvals: resolved " ++ approvalId ++ " successfully");;
        ret true
    | Rejected err =>
        logError ("telegram exec approvals: resolve failed: " ++ err);;
        ret false
    end.

Definition handleCallbackQuery (shortId : string) (action : ExecApprovalDecision)
    (userId : option string) (gw : Outcome) : M bool :=
  let* fullId := gets (fun s => shortIdMap s !! shortId) in
  if negb (truthy_opt fullId) then
    logDebug ("telegram exec approvals: unknown shortId " ++ shortId);;
    ret false
  else
    let fullId := default "" fullId in
    let approvers := approvers_or_empty in
    if truthy_opt userId
       && negb (existsb (fun a => String.eqb (String_of a) (default "" userId)) approvers)
    then
      logDebug ("telegram exec approvals: user " ++ default "" userId ++ " is not an approver");;
      ret false
    else resolveApproval fullId action gw.

Definition getFullApprovalId (shortId : string) (s : State) : option string :=
  shortIdMap s !! shortId.

(** An [EventFrame] of the gateway, by its [event] name. *)
Inductive EventFrame :=
| ExecApprovalRequestedEvent (payload : ExecApprovalRequest)
| ExecApprovalResolvedEvent (payload : ExecApprovalResolved)
| OtherEvent (event : string).

Definition handleGatewayEvent (evt : EventFrame) (now : Z) (edit : Outcome) : M unit :=
  match evt with
  | ExecApprovalRequestedEvent req => handleApprovalRequested req now
  | ExecApprovalResolvedEvent resolved => handleApprovalResolved resolved edit
  | OtherEvent _ => ret tt
  end.

(** ** The event loop *)

(** What can happen to a handler: a call of a public method, an event of
    the gateway client, a settled [sendMessage], a timeout that fires.
    Each carries what the handler reads from outside while it runs: the
    clock, and how the calls it awaits settle. *)
Inductive Input :=
| CallStart
| CallStop
| OnEvent (evt : EventFrame) (now : Z) (edit : Outcome)
| SendSettled (k : nat) (r : SendOutcome) (now : Z)
| TimeoutFires (h : nat) (edit : Outcome)
| CallbackQuery (shortId : string) (action : ExecApprovalDecision)
    (userId : option string) (gw : Outcome).

(** A timeout that is still armed fires: the runtime drops it and runs
    its callback. *)
Definition fireTimeout (h : nat) (edit : Outcome) : M unit :=
  let* t := gets (fun s => timers s !! h) in
  match t with
  | None => ret tt
  | Some (approvalId, _) =>
      modify (set_timers (delete h));;
      handleApprovalTimeout approvalId edit
  end.

(** Modelled from the spec: [GatewayClient] is not part of the sources
    at hand.  [onEvent] is a callback of the client that [start] creates,
    and shutdown detaches from the origin event stream: an event is
    delivered only while the handler holds a client. *)
Definition deliverEvent (evt : EventFrame) (now : Z) (edit : Outcome) : M unit :=
  let* client := gets gatewayClient in
  if client then handleGatewayEvent evt now edit else ret tt.

Definition step (i : Input) : M unit :=
  match i with
  | CallStart => start
  | CallStop => stop
  | OnEvent evt now edit => deliverEvent evt now edit
  | SendSettled k r now => resumeApprovalRequested k r now
  | TimeoutFires h edit => fireTimeout h edit
  | CallbackQuery shortId action userId gw =>
      handleCallbackQuery shortId action userId gw;; ret tt
  end.

Fixpoint run (inputs : list Input) : M unit :=
  match inputs with
  | [] => ret tt
  | i :: inputs' => step i;; run inputs'
  end.

(** The states the handler can be in. *)
Inductive reachable : State -> Prop :=
| reachable_initial : reachable initial
| reachable_step s i : reachable s -> reachable (after (step i s)).

End Handler.

(** ** Vocabulary of the properties *)

(** The third field of a token is one of the three tag characters. *)
Definition recognized_tag (c : string) : Prop := c = "o" \/ c = "a" \/ c = "d".

(** A token [parseExecApprovalCallbackData] has to refuse: a missing or
    empty input, a token that does not start with the prefix, that does
    not split into exactly three fields, whose second field is empty or
    whose third field is not a tag. *)
Definition malformed (data : JsData) : Prop :=
  match data with
  | JsUndefined | JsNull => True
  | JsStr s =>
      s = ""
      \/ Js.startsWith (EXEC_APPROVAL_PREFIX ++ ":") s = false
      \/ length (Js.split colon s) <> 3%nat
      \/ nth 1 (Js.split colon s) "" = ""
      \/ ~ recognized_tag (nth 2 (Js.split colon s) "")
  end.

(** The agent dimension of [shouldHandle] rejects the request. *)
Definition agentFilterRejects (config : TelegramExecApprovalConfig)
    (req : ExecApprovalRequest) : bool :=
  has_length (agentFilter config)
  && (negb (truthy_opt (agentId (request req)))
      || negb (existsb (String.eqb (default "" (agentId (request req))))
                       (default [] (agentFilter config)))).

(** The message edits and the gateway requests among some effects. *)
Definition isEdit (e : Effect) : bool :=
  match e with EditMessageText _ _ _ _ => true | _ => false end.

Definition edits (l : list Effect) : list Effect := List.filter isEdit l.

Definition isGatewayRequest (e : Effect) : bool :=
  match e with GatewayRequest _ _ => true | _ => false end.

Definition gatewayRequests (l : list Effect) : list Effect :=
  List.filter isGatewayRequest l.

(** A notification that did not produce a message: [sendMessage] threw,
    or gave no message, or one whose [message_id] is falsy. *)
Definition sendFailed (r : SendOutcome) : bool :=
  match r with
  | SendRejected _ => true
  | SendFulfilled None => true
  | SendFulfilled (Some mid) => (mid =? 0)%Z
  end.

(** An armed timeout whose approval id has no pending entry. *)
Definition dangling (s : State) (h : nat) : Prop :=
  exists approvalId ms,
    timers s !! h = Some (approvalId, ms) /\ pending s !! approvalId = None.

(** ** Concrete data, after the tests of the handler *)

Module Example.

(** A regular-expression engine that knows one invalid pattern and
    matches every other pattern as a literal. *)
Definition RegExp_new (p : string) : option string :=
  if String.eqb p "[invalid(regex" then None else Some p.

Definition RegExp_test (re s : string) : bool := Js.includes s re.

(** [String(n)] for an integer [n] that JavaScript prints in full: its
    decimal numeral. *)
Definition String_of_number (n : Z) : string := NilZero.string_of_int (Z.to_int n).

Definition details (agent session : option string) : RequestDetails :=
  {| command := "echo hello"; cwd := Some "/home/user"; host := Some "gateway";
     security := None; ask := None; agentId := agent; resolvedPath := None;
     sessionKey := session |}.

Definition requestOf (id : string) (agent session : option string) : ExecApprovalRequest :=
  {| req_id := id; request := details agent session;
     createdAtMs := 0; expiresAtMs := 60000 |}.

Definition invalidFilterConfig : TelegramExecApprovalConfig :=
  {| enabled := true; approvers := Some [ApproverStr "123"]; agentFilter := None;
     sessionFilter := Some ["[invalid(regex"] |}.

Definition oneApprover : TelegramExecApprovalConfig :=
  {| enabled := true; approvers := Some [ApproverStr "123"]; agentFilter := None;
     sessionFilter := None |}.

Definition twoApprovers : TelegramExecApprovalConfig :=
  {| enabled := true; approvers := Some [ApproverStr "123"; ApproverNum 456];
     agentFilter := None; sessionFilter := None |}.

Definition requestA : ExecApprovalRequest :=
  requestOf "abc12345-6789-def0" (Some "test-agent") (Some "agent:test-agent:telegram:123").

(** A second request whose id shares its first eight characters with
    [requestA]. *)
Definition requestB : ExecApprovalRequest :=
  requestOf "abc12345-ffff-0000" (Some "test-agent") (Some "agent:test-agent:telegram:123").

Definition resolvedA : ExecApprovalResolved :=
  {| res_id := "abc12345-6789-def0"; decision := AllowOnce;
     resolvedBy := Some "operator"; ts := 2000 |}.

Definition runWith (config : TelegramExecApprovalConfig) (inputs : list Input) : Ran unit :=
  run string RegExp_new RegExp_test String_of_number config inputs initial.

(** The one approver is notified of [requestA]. *)
Definition notifiedOne : list Input :=
  [CallStart;
   OnEvent (ExecApprovalRequestedEvent requestA) 1000 Fulfilled;
   SendSettled 0 (SendFulfilled (Some 11%Z)) 1001].

(** Both approvers are notified of [requestA]. *)
Definition notifiedBoth : list Input :=
  [CallStart;
   OnEvent (ExecApprovalRequestedEvent requestA) 1000 Fulfilled;
   SendSettled 0 (SendFulfilled (Some 11%Z)) 1001;
   SendSettled 0 (SendFulfilled (Some 12%Z)) 1002].

(** ... and the gateway then reports the resolution. *)
Definition notifiedBothThenResolved : list Input :=
  notifiedBoth ++ [OnEvent (ExecApprovalResolvedEvent resolvedA) 2000 Fulfilled].

(** ... or the handler is stopped instead. *)
Definition notifiedBothThenStopped : list Input :=
  notifiedBoth ++ [CallStop].

(** The resolution of [requestA] arrives while the notification of the
    second approver is still in flight. *)
Definition resolvedWhileNotifying : list Input :=
  [CallStart;
   OnEvent (ExecApprovalRequestedEvent requestA) 1000 Fulfilled;
   SendSettled 0 (SendFulfilled (Some 11%Z)) 1001;
   OnEvent (ExecApprovalResolvedEvent resolvedA) 2000 Fulfilled;
   SendSettled 0 (SendFulfilled (Some 12%Z)) 2001].

(** [requestA], then [requestB], each notified to the one approver. *)
Definition twoRequestsOnePrefix : list Input :=
  [CallStart;
   OnEvent (ExecApprovalRequestedEvent requestA) 1000 Fulfilled;
   SendSettled 0 (SendFulfilled (Some 11%Z)) 1001;
   OnEvent (ExecApprovalRequestedEvent requestB) 1002 Fulfilled;
   SendSettled 0 (SendFulfilled (Some 12%Z)) 1003].

End Example.

(** ** Message escaping *)

(** [s.replace(/c/g, by)] for a pattern of one literal character and a
    replacement without [$]. *)
Fixpoint replaceAll (c : ascii) (by_ : string) (s : string) : string :=
  match s with
  | EmptyString => EmptyString
  | String a s' =>
      if Ascii.eqb a c then by_ ++ replaceAll c by_ s'
      else String a (replaceAll c by_ s')
  end.

Definition escapeHtml (text : string) : string :=
  replaceAll ">"%char "&gt;"
    (replaceAll "<"%char "&lt;"
       (replaceAll "&"%char "&amp;" text)).

(** What [escapeHtml] makes of one character. *)
Definition escapeChar (a : ascii) : string :=
  if Ascii.eqb a "&"%char then "&amp;"
  else if Ascii.eqb a "<"%char then "&lt;"
  else if Ascii.eqb a ">"%char then "&gt;"
  else String a EmptyString.

(** [parts.join(sep)]. *)
Fixpoint join (sep : string) (parts : list string) : string :=
  match parts with
  | [] => EmptyString
  | [p] => p
  | p :: ps => p ++ sep ++ join sep ps
  end.

(** ** The filter as a formula *)

Section FilterFormula.

Variable RegExp : Type.
Variable RegExp_new : string -> option RegExp.
Variable RegExp_test : RegExp -> string -> bool.

(** A pattern accepts a session key that contains it, or that it matches
    as a regular expression when it is one. *)
Definition patternAccepts (session p : string) : bool :=
  Js.includes session p
  || match RegExp_new p with
     | Some re => RegExp_test re session
     | None => false
     end.

(** The session dimension: no filter, or a session key that some pattern
    accepts. *)
Definition sessionFilterAccepts (config : TelegramExecApprovalConfig)
    (req : ExecApprovalRequest) : bool :=
  negb (has_length (sessionFilter config))
  || (truthy_opt (sessionKey (request req))
      && existsb (patternAccepts (default "" (sessionKey (request req))))
           (default [] (sessionFilter config))).

End FilterFormula.

(** Every armed timeout has a delay that is not negative. *)
Definition delaysNonNegative (s : State) : Prop :=
  forall h approvalId ms, timers s !! h = Some (approvalId, ms) -> (0 <= ms)%Z.

(** ** The handler as a transition system *)

Definition isLog (e : Effect) : bool :=
  match e with LogDebug _ | LogError _ => true | _ => false end.

(** The effects other than log lines. *)
Definition nonLog (l : list Effect) : list Effect :=
  List.filter (fun e => negb (isLog e)) l.

Section Transitions.

Variable RegExp : Type.
Variable RegExp_new : string -> option RegExp.
Variable RegExp_test : RegExp -> string -> bool.
Variable String_of_number : Z -> string.
Variable config : TelegramExecApprovalConfig.

(** The chats of the configured approvers. *)
Definition approverChats : list string :=
  map (String_of String_of_number) (approvers_or_empty config).

(** What a suspended activation does when its send has settled: the send
    to the next approver, if there is one, and its place among the
    suspended activations. *)
Definition nextSend (task : Suspended) : list Effect :=
  match sus_rest task with
  | [] => []
  | a :: _ =>
      [SendMessage (String_of String_of_number a) (sus_messageText task)
         (buildInlineKeyboard (req_id (sus_request task)))]
  end.

Definition nextSuspended (k : nat) (task : Suspended) (l : list Suspended) : list Suspended :=
  match sus_rest task with
  | [] => delete k l
  | a :: rest =>
      <[k := {| sus_request := sus_request task; sus_messageText := sus_messageText task;
                sus_chatId := String_of String_of_number a; sus_rest := rest |}]> l
  end.

(** The edit that removes an entry makes, when the request is cached. *)
Definition finalEdit (s : State) (approvalId : string) (entry : PendingApproval)
    (text : ExecApprovalRequest -> MessageText) : list Effect :=
  match requestCache s !! approvalId with
  | Some req =>
      [EditMessageText (telegramChatId entry) (telegramMessageId entry) (text req) []]
  | None => []
  end.

Definition forget (approvalId : string) (s : State) : State :=
  set_shortIdMap (delete (Js.slice0 8 approvalId))
    (set_requestCache (delete approvalId)
       (set_pending (delete approvalId) s)).

(** The transitions of the handler: from a state, the effects other
    than log lines and the next state. *)
Inductive transition (s : State) : list Effect -> State -> Prop :=
| transition_none :
    transition s [] s
| transition_start_inert :
    started s = false ->
    enabled config = false \/ has_length (approvers config) = false ->
    transition s [] (set_started true s)
| transition_start :
    started s = false ->
    enabled config = true ->
    has_length (approvers config) = true ->
    transition s [GatewayStart] (set_gatewayClient true (set_started true s))
| transition_stop :
    started s = true ->
    transition s (if gatewayClient s then [GatewayStop] else [])
      (set_gatewayClient false
         (set_shortIdMap (fun _ => ∅)
            (set_requestCache (fun _ => ∅)
               (set_pending (fun _ => ∅)
                  (set_timers
                     (fun t => map_fold (fun _ p t' => delete (timeoutId p) t') t (pending s))
                     (set_started false s))))))
| transition_accept (req : ExecApprovalRequest) (now : Z) (a : Approver)
    (rest : list Approver) :
    gatewayClient s = true ->
    shouldHandle RegExp RegExp_new RegExp_test config req = Normal true ->
    approvers_or_empty config = a :: rest ->
    transition s
      [SendMessage (String_of String_of_number a) (ExecApprovalMessage req now)
         (buildInlineKeyboard (req_id req))]
      (set_suspended
         (fun l => l ++ [{| sus_request := req;
                            sus_messageText := ExecApprovalMessage req now;
                            sus_chatId := String_of String_of_number a;
                            sus_rest := rest |}])
         (set_shortIdMap <[Js.slice0 8 (req_id req) := req_id req]>
            (set_requestCache <[req_id req := req]> s)))
| transition_resolve (resolved : ExecApprovalResolved) (entry : PendingApproval) :
    gatewayClient s = true ->
    pending s !! res_id resolved = Some entry ->
    transition s
      (finalEdit s (res_id resolved) entry
         (fun req => ResolvedMessage req (decision resolved) (resolvedBy resolved)))
      (forget (res_id resolved) (set_timers (delete (timeoutId entry)) s))
| transition_expire (h : nat) (approvalId : string) (ms : Z) (entry : PendingApproval) :
    timers s !! h = Some (approvalId, ms) ->
    pending s !! approvalId = Some entry ->
    transition s (finalEdit s approvalId entry ExpiredMessage)
      (forget approvalId (set_timers (delete h) s))
| transition_fire_late (h : nat) (approvalId : string) (ms : Z) :
    timers s !! h = Some (approvalId, ms) ->
    pending s !! approvalId = None ->
    transition s [] (set_timers (delete h) s)
| transition_notified (k : nat) (task : Suspended) (mid now : Z) :
    suspended s !! k = Some task ->
    mid <> 0%Z ->
    transition s (nextSend task)
      (set_suspended (nextSuspended k task)
         (set_pending
            <[req_id (sus_request task) :=
                {| telegramMessageId := mid; telegramChatId := sus_chatId task;
                   timeoutId := nextTimeout s |}]>
            (set_nextTimeout (S (nextTimeout s))
               (set_timers
                  <[nextTimeout s :=
                      (req_id (sus_request task),
                       Z.max 0 (expiresAtMs (sus_request task) - now))]> s))))
| transition_not_notified (k : nat) (task : Suspended) :
    suspended s !! k = Some task ->
    transition s (nextSend task) (set_suspended (nextSuspended k task) s)
| transition_callback (shortId fullId : string) (action : ExecApprovalDecision) :
    shortIdMap s !! shortId = Some fullId ->
    Js.truthy fullId = true ->
    gatewayClient s = true ->
    transition s [GatewayRequest fullId action] s.

End Transitions.

(** ** Invariants of the handler *)

(** Every entry of the short-id index maps the first eight characters of
    an id to that id, the request of that id is cached, and the cache
    holds every request under its own id. *)
Definition shortIdsCached (s : State) : Prop :=
  (forall shortId fullId, shortIdMap s !! shortId = Some fullId ->
     shortId = Js.slice0 8 fullId
     /\ exists req, requestCache s !! fullId = Some req)
  /\ (forall k req, requestCache s !! k = Some req -> req_id req = k).

(** A gateway client is held only by a started handler, and without one
    the short-id index and the request cache are empty. *)
Definition clientHeld (s : State) : Prop :=
  (gatewayClient s = true -> started s = true)
  /\ (gatewayClient s = false -> shortIdMap s = ∅ /\ requestCache s = ∅).

(** Timeout handles are handed out in order: none at or above the next
    one is armed. *)
Definition freshHandles (s : State) : Prop :=
  forall h, (nextTimeout s <= h)%nat -> timers s !! h = None.

Section Chats.

Variable String_of_number : Z -> string.
Variable config : TelegramExecApprovalConfig.

(** The pending entries and the suspended activations know chats of
    configured approvers only. *)
Definition chatsConfigured (s : State) : Prop :=
  (forall approvalId entry, pending s !! approvalId = Some entry ->
     In (telegramChatId entry) (approverChats String_of_number config))
  /\ Forall (fun task =>
               In (sus_chatId task) (approverChats String_of_number config)
               /\ forall a, In a (sus_rest task) -> In a (approvers_or_empty config))
       (suspended s).

(** A message effect is addressed to the chat of a configured approver,
    and an edit leaves no button. *)
Definition addressedToApprover (e : Effect) : Prop :=
  match e with
  | SendMessage chatId _ _ => In chatId (approverChats String_of_number config)
  | EditMessageText chatId _ _ reply_markup =>
      In chatId (approverChats String_of_number config) /\ reply_markup = []
  | _ => True
  end.

End Chats.

(** ** The file logger: error-spike alerts and size-based rotation

    From [src/logging/logger.ts]: [trackErrorAndCheckAlert] and the file
    transport that [buildLogger] attaches, over the module's variables.
    Byte counts, file counts, millisecond clocks and the thresholds of
    the alert configuration are integers.  [maxFilesPerDay] is read from
    the configuration and rounded nowhere: it is any JavaScript
    number. *)

Module Logger.

(** A JavaScript number: a finite value, an infinity or NaN. *)
Inductive JsNumber :=
| Finite (q : Q)
| PosInfinity
| NegInfinity
| NaN.

(** [i < n] and [i >= n] for an integer [i] and a number [n]; both are
    false when [n] is NaN. *)
Definition lt_number (i : Z) (n : JsNumber) : bool :=
  match n with
  | Finite q => negb (Qle_bool q (inject_Z i))
  | PosInfinity => true
  | NegInfinity => false
  | NaN => false
  end.

Definition ge_number (i : Z) (n : JsNumber) : bool :=
  match n with
  | Finite q => Qle_bool q (inject_Z i)
  | PosInfinity => false
  | NegInfinity => true
  | NaN => false
  end.

Definition DEFAULT_ALERT_THRESHOLD : Z := 100.
Definition DEFAULT_ALERT_WINDOW_SECONDS : Z := 60.
Definition DEFAULT_ALERT_COOLDOWN_SECONDS : Z := 300.

Section Logger.

(** The type [LoggingAlertConfig] is declared in [config/types], outside
    the sources at hand: it is a parameter, with one reader for each
    field the logger reads ([alert_enabled] is the truthiness of
    [enabled]; the other fields are optional numbers). *)
Variable LoggingAlertConfig : Type.
Variable alert_enabled : LoggingAlertConfig -> bool.
Variable alert_threshold : LoggingAlertConfig -> option Z.
Variable alert_windowSeconds : LoggingAlertConfig -> option Z.
Variable alert_cooldownSeconds : LoggingAlertConfig -> option Z.

(** [getRotatedPath] is built on the [path] module of the runtime, which
    is not modelled: it is a parameter. *)
Variable getRotatedPath : string -> Z -> string.

(** The module's variables. *)
Record LoggerState := {
  currentLogFile : option string;
  currentFileSize : Z;
  currentRotationIndex : Z;
  errorTimestamps : list Z;
  lastAlertSentAt : Z;
  alertConfig : option LoggingAlertConfig;
}.

(** The fields of [ResolvedSettings] that the file transport reads.
    [maxFileSize] is the default or what [parseFileSize] returns from
    [Math.floor], a count of bytes; [maxFilesPerDay] is the number of
    the configuration as it is. *)
Record ResolvedSettings := {
  file : string;
  maxFileSize : Z;
  maxFilesPerDay : JsNumber;
}.

Definition threshold_of (cfg : LoggingAlertConfig) : Z :=
  default DEFAULT_ALERT_THRESHOLD (alert_threshold cfg).

Definition windowMs_of (cfg : LoggingAlertConfig) : Z :=
  default DEFAULT_ALERT_WINDOW_SECONDS (alert_windowSeconds cfg) * 1000.

Definition cooldownMs_of (cfg : LoggingAlertConfig) : Z :=
  default DEFAULT_ALERT_COOLDOWN_SECONDS (alert_cooldownSeconds cfg) * 1000.

(** [while (ts.length > 0 && ts[0] < cutoff) ts.shift()]. *)
Fixpoint dropOld (cutoff : Z) (ts : list Z) : list Z :=
  match ts with
  | [] => []
  | t :: ts' => if (t <? cutoff)%Z then dropOld cutoff ts' else ts
  end.

(** [trackErrorAndCheckAlert], with the clock it reads. *)
Definition trackErrorAndCheckAlert (now : Z) (st : LoggerState) : bool * LoggerState :=
  match alertConfig st with
  | None => (false, st)
  | Some cfg =>
      if negb (alert_enabled cfg) then (false, st)
      else
        let threshold := threshold_of cfg in
        let windowMs := windowMs_of cfg in
        let cooldownMs := cooldownMs_of cfg in
        let cutoff := (now - windowMs)%Z in
        let ts := dropOld cutoff (errorTimestamps st ++ [now]) in
        if (Z.of_nat (length ts) >=? threshold)%Z
           && (now - lastAlertSentAt st >? cooldownMs)%Z
        then
          (true,
           {| currentLogFile := currentLogFile st; currentFileSize := currentFileSize st;
              currentRotationIndex := currentRotationIndex st;
              errorTimestamps := ts; lastAlertSentAt := now;
              alertConfig := alertConfig st |})
        else
          (false,
           {| currentLogFile := currentLogFile st; currentFileSize := currentFileSize st;
              currentRotationIndex := currentRotationIndex st;
              errorTimestamps := ts; lastAlertSentAt := lastAlertSentAt st;
              alertConfig := alertConfig st |})
  end.

(** What the file transport does outside the module: a line appended to
    a file, and a call of [sendTelegramAlert]. *)
Inductive LogEffect :=
| AppendFile (path : string) (lineBytes : Z)
| SendTelegramAlert (errorCount windowSeconds : Z).

Definition isErrorLevel (logLevel : option string) : bool :=
  match logLevel with
  | Some l => String.eqb l "error" || String.eqb l "fatal"
  | None => false
  end.

(** The transport that [buildLogger] attaches, for one log object.
    [lineBytes] is the size of the serialized line with its newline, or
    [None] when serializing throws; [logLevel] is the lower-cased level
    name of the object; [appended] tells whether [fs.appendFileSync]
    returns.  Whatever is thrown is caught at the end, with the
    variables as they are by then. *)
Definition fileTransport (settings : ResolvedSettings) (lineBytes : option Z)
    (logLevel : option string) (now : Z) (appended : bool) (st : LoggerState) :
    LoggerState * list LogEffect :=
  match lineBytes with
  | None => (st, [])
  | Some lineBytes =>
      let st1 :=
        if truthy_opt (currentLogFile st)
           && (currentFileSize st + lineBytes >? maxFileSize settings)%Z
           && lt_number (currentRotationIndex st) (maxFilesPerDay settings)
        then
          {| currentLogFile :=
               Some (getRotatedPath (file settings) (currentRotationIndex st + 1));
             currentFileSize := 0;
             currentRotationIndex := currentRotationIndex st + 1;
             errorTimestamps := errorTimestamps st;
             lastAlertSentAt := lastAlertSentAt st;
             alertConfig := alertConfig st |}
        else st in
      if ge_number (currentRotationIndex st1) (maxFilesPerDay settings)
         && (currentFileSize st1 >? maxFileSize settings)%Z
      then (st1, [])
      else
        let written :=
          if truthy_opt (currentLogFile st1) then
            if appended then
              Some ({| currentLogFile := currentLogFile st1;
                       currentFileSize := currentFileSize st1 + lineBytes;
                       currentRotationIndex := currentRotationIndex st1;
                       errorTimestamps := errorTimestamps st1;
                       lastAlertSentAt := lastAlertSentAt st1;
                       alertConfig := alertConfig st1 |},
                    [AppendFile (default "" (currentLogFile st1)) lineBytes])
            else None
          else Some (st1, []) in
        match written with
        | None => (st1, [])
        | Some (st2, effects) =>
            if isErrorLevel logLevel then
              let '(alert, st3) := trackErrorAndCheckAlert now st2 in
              if alert then
                (st3,
                 effects ++
                 [SendTelegramAlert
                    (default DEFAULT_ALERT_THRESHOLD
                       (alertConfig st3 ≫= alert_threshold))
                    (default DEFAULT_ALERT_WINDOW_SECONDS
                       (alertConfig st3 ≫= alert_windowSeconds))])
              else (st3, effects)
            else (st2, effects)
        end
  end.

(** The error reports at times [nows], one after the other: the times at
    which an alert is due, and the state at the end. *)
Fixpoint alertTimes (nows : list Z) (st : LoggerState) : list Z * LoggerState :=
  match nows with
  | [] => ([], st)
  | now :: nows' =>
      let '(alert, st') := trackErrorAndCheckAlert now st in
      let '(times, st'') := alertTimes nows' st' in
      (if alert then now :: times else times, st'')
  end.

(** Times in the order of the clock. *)
Fixpoint ascending (ts : list Z) : Prop :=
  match ts with
  | [] => True
  | t :: ts' => Forall (Z.le t) ts' /\ ascending ts'
  end.

(** Each time is more than [gap] after the one before it, the first one
    after [prev]. *)
Fixpoint spaced (gap prev : Z) (times : list Z) : Prop :=
  match times with
  | [] => True
  | t :: times' => (t - prev > gap)%Z /\ spaced gap t times'
  end.

(** The log is full: the last file allowed is over the size limit. *)
Definition logFull (settings : ResolvedSettings) (st : LoggerState) : Prop :=
  ge_number (currentRotationIndex st) (maxFilesPerDay settings) = true
  /\ (maxFileSize settings < currentFileSize st)%Z.

End Logger.

(** A configuration record for the examples. *)
Record AlertConfig := {
  ac_enabled : bool;
  ac_threshold : option Z;
  ac_windowSeconds : option Z;
  ac_cooldownSeconds : option Z;
}.

Definition exampleRotatedPath (basePath : string) (index : Z) : string :=
  basePath ++ "." ++ NilZero.string_of_int (Z.to_int index).

Definition exampleAlerts : AlertConfig :=
  {| ac_enabled := true; ac_threshold := Some 3%Z; ac_windowSeconds := Some 60%Z;
     ac_cooldownSeconds := None |}.

Definition exampleState (size index : Z) (ts : list Z) (alerts : option AlertConfig) :
    LoggerState AlertConfig :=
  {| currentLogFile := Some "/tmp/openclaw/test.log"; currentFileSize := size;
     currentRotationIndex := index; errorTimestamps := ts; lastAlertSentAt := 0;
     alertConfig := alerts |}.

Definition exampleSettings : ResolvedSettings :=
  {| file := "/tmp/openclaw/test.log"; maxFileSize := 100;
     maxFilesPerDay := Finite (inject_Z 3) |}.


End Logger.

(** * Properties *)

Arguments Js.slice0 : simpl never.
Arguments String.append : simpl never.
Arguments shouldHandle : simpl never.

(** ** Codec *)

Lemma truthy_false (s : string) : Js.truthy s = false <-> s = "".
Proof. destruct s; simpl; split; congruence. Qed.

Lemma truthy_true (s : string) : Js.truthy s = true <-> s <> "".
Proof. destruct s; simpl; split; congruence. Qed.

Lemma split_cons (c : ascii) (s : string) :
  exists f fs, Js.split c s = f :: fs.
Proof.
  induction s as [|a s [f [fs IH]]]; simpl; [eauto|].
  destruct (Ascii.eqb a c); [eauto|]. rewrite IH. eauto.
Qed.

Lemma split_lacks (c : ascii) (s : string) :
  Js.lacks c s = true -> Js.split c s = [s].
Proof.
  induction s as [|a s IH]; simpl; [reflexivity|].
  destruct (Ascii.eqb a c); simpl; [discriminate|].
  intros H. by rewrite IH.
Qed.

Lemma split_app_sep (c : ascii) (s r : string) :
  Js.lacks c s = true -> Js.split c (s ++ String c r) = s :: Js.split c r.
Proof.
  induction s as [|a s IH]; simpl.
  - intros _. by rewrite Ascii.eqb_refl.
  - destruct (Ascii.eqb a c); simpl; [discriminate|].
    intros H. by rewrite IH.
Qed.

Lemma length_split_app_sep (c : ascii) (s r : string) :
  length (Js.split c (s ++ String c r)) = (length (Js.split c s) + length (Js.split c r))%nat.
Proof.
  induction s as [|a s IH]; simpl.
  - by rewrite Ascii.eqb_refl.
  - destruct (Ascii.eqb a c); simpl; [by rewrite IH|].
    destruct (split_cons c (s ++ String c r)) as [f [fs E]].
    destruct (split_cons c s) as [g [gs E']].
    rewrite E, E' in *. exact IH.
Qed.

Lemma length_split_has_sep (c : ascii) (s : string) :
  Js.lacks c s = false -> (2 <= length (Js.split c s))%nat.
Proof.
  induction s as [|a s IH]; simpl; [discriminate|].
  destruct (Ascii.eqb a c); simpl.
  - intros _. destruct (split_cons c s) as [f [fs E]]. rewrite E. simpl. lia.
  - intros H. specialize (IH H).
    destruct (split_cons c s) as [f [fs E]]. rewrite E in *. exact IH.
Qed.

Lemma lacks_actionChar (a : ExecApprovalDecision) : Js.lacks colon (actionChar a) = true.
Proof. by destruct a. Qed.

Lemma actionOfChar_actionChar (a : ExecApprovalDecision) : actionOfChar (actionChar a) = Some a.
Proof. by destruct a. Qed.

Lemma slice0_truthy (n : nat) (s : string) :
  Js.truthy s = true -> Js.truthy (Js.slice0 (S n) s) = true.
Proof. by destruct s. Qed.

Lemma split_build (approvalId : string) (action : ExecApprovalDecision) :
  Js.split colon (buildExecApprovalCallbackData approvalId action)
  = "ea" :: Js.split colon (Js.slice0 8 approvalId ++ String colon (actionChar action)).
Proof. reflexivity. Qed.

(** C5, amended: for every identifier of length at least 1 whose first
    eight characters hold no colon, and each of the three decisions,
    decoding the encoded token yields the first eight characters of the
    identifier (the whole identifier when it is shorter) and the
    decision. *)
Theorem roundtrip_without_colon (approvalId : string) (action : ExecApprovalDecision) :
  (1 <= String.length approvalId)%nat ->
  Js.lacks colon (Js.slice0 8 approvalId) = true ->
  parseExecApprovalCallbackData (JsStr (buildExecApprovalCallbackData approvalId action))
  = Some (Js.slice0 8 approvalId, action).
Proof.
  intros Hlen Hcolon.
  assert (Hid : Js.truthy approvalId = true) by (destruct approvalId; [simpl in Hlen; lia | reflexivity]).
  unfold parseExecApprovalCallbackData.
  change (Js.truthy (buildExecApprovalCallbackData approvalId action)) with true.
  change (Js.startsWith (EXEC_APPROVAL_PREFIX ++ ":")
            (buildExecApprovalCallbackData approvalId action)) with true.
  cbn [negb orb].
  rewrite split_build, split_app_sep, (split_lacks _ _ (lacks_actionChar action)) by exact Hcolon.
  cbn [length Nat.eqb negb nth].
  rewrite actionOfChar_actionChar, slice0_truthy by exact Hid.
  reflexivity.
Qed.

(** The condition is needed: a colon among the first eight characters
    gives a token of more than three fields, which is refused. *)
Lemma colon_in_prefix_breaks_roundtrip (approvalId : string) (action : ExecApprovalDecision) :
  Js.lacks colon (Js.slice0 8 approvalId) = false ->
  parseExecApprovalCallbackData (JsStr (buildExecApprovalCallbackData approvalId action)) = None.
Proof.
  intros Hcolon.
  unfold parseExecApprovalCallbackData.
  change (Js.truthy (buildExecApprovalCallbackData approvalId action)) with true.
  change (Js.startsWith (EXEC_APPROVAL_PREFIX ++ ":")
            (buildExecApprovalCallbackData approvalId action)) with true.
  cbn [negb orb].
  rewrite split_build.
  pose proof (length_split_app_sep colon (Js.slice0 8 approvalId) (actionChar action)) as Hl.
  pose proof (length_split_has_sep _ _ Hcolon) as H2.
  rewrite (split_lacks _ _ (lacks_actionChar action)) in Hl. cbn [length] in Hl.
  destruct (Nat.eqb_spec (length ("ea" :: Js.split colon (Js.slice0 8 approvalId ++ String colon (actionChar action)))) 3) as [E|E].
  - cbn [length] in E. lia.
  - reflexivity.
Qed.

Lemma roundtrip_without_colon_witness :
  parseExecApprovalCallbackData
    (JsStr (buildExecApprovalCallbackData "test-approval-id-12345678" AllowAlways))
  = Some ("test-app", AllowAlways).
Proof.
  apply (roundtrip_without_colon "test-approval-id-12345678" AllowAlways).
  - simpl. lia.
  - reflexivity.
Defined.

(** C5 as stated fails on the identifier ["a:b"]: its token
    ["ea:a:b:o"] splits into four fields. *)
Lemma roundtrip_fails_with_colon :
  (1 <= String.length "a:b")%nat /\
  parseExecApprovalCallbackData (JsStr (buildExecApprovalCallbackData "a:b" AllowOnce))
  <> Some (Js.slice0 8 "a:b", AllowOnce).
Proof. split; [simpl; lia | discriminate]. Qed.

Lemma actionOfChar_Some (c : string) (a : ExecApprovalDecision) :
  actionOfChar c = Some a <-> c = actionChar a.
Proof.
  unfold actionOfChar.
  destruct (String.eqb_spec c "o") as [->|Ho]; [destruct a; simpl; split; congruence|].
  destruct (String.eqb_spec c "a") as [->|Ha]; [destruct a; simpl; split; congruence|].
  destruct (String.eqb_spec c "d") as [->|Hd]; [destruct a; simpl; split; congruence|].
  destruct a; simpl; split; congruence.
Qed.

Lemma actionOfChar_None (c : string) :
  actionOfChar c = None <-> ~ recognized_tag c.
Proof.
  unfold actionOfChar, recognized_tag.
  destruct (String.eqb_spec c "o") as [->|Ho]; [split; [congruence | intros H; exfalso; apply H; auto]|].
  destruct (String.eqb_spec c "a") as [->|Ha]; [split; [congruence | intros H; exfalso; apply H; auto]|].
  destruct (String.eqb_spec c "d") as [->|Hd]; [split; [congruence | intros H; exfalso; apply H; auto]|].
  split; [intros _ [?|[?|?]]; congruence | reflexivity].
Qed.

(** C7: [parseExecApprovalCallbackData] returns [null] for every token
    that does not start with the prefix, does not split into exactly
    three colon-delimited fields, has an empty second field or a third
    field that is not one of the three tag characters, and for an empty,
    [null] or [undefined] input.  The function is total: no input makes
    it throw. *)
Theorem parse_malformed_is_null (data : JsData) :
  malformed data -> parseExecApprovalCallbackData data = None.
Proof.
  destruct data as [| |s]; try reflexivity.
  unfold malformed, parseExecApprovalCallbackData. intros H.
  destruct (Js.truthy s) eqn:Ht; cbn [negb orb]; [|reflexivity].
  destruct (Js.startsWith _ s) eqn:Hp; cbn [negb orb]; [|reflexivity].
  destruct (Nat.eqb_spec (length (Js.split colon s)) 3) as [Hl|Hl]; cbn [negb]; [|reflexivity].
  destruct (actionOfChar _) as [a|] eqn:Ha; [|reflexivity].
  destruct (Js.truthy (nth 1 _ _)) eqn:Hs; cbn [negb]; [|reflexivity].
  exfalso.
  destruct H as [H|[H|[H|[H|H]]]].
  - apply truthy_false in H. congruence.
  - congruence.
  - congruence.
  - apply truthy_false in H. congruence.
  - apply actionOfChar_None in H. congruence.
Qed.

(** Conversely, only those inputs are refused. *)
Lemma parse_null_is_malformed (data : JsData) :
  parseExecApprovalCallbackData data = None -> malformed data.
Proof.
  destruct data as [| |s]; try (intros; exact I).
  unfold malformed, parseExecApprovalCallbackData.
  destruct (Js.truthy s) eqn:Ht; cbn [negb orb]; [|intros _; left; by apply truthy_false].
  destruct (Js.startsWith _ s) eqn:Hp; cbn [negb orb]; [|intros _; right; left; reflexivity].
  destruct (Nat.eqb_spec (length (Js.split colon s)) 3) as [Hl|Hl]; cbn [negb];
    [|intros _; do 2 right; left; exact Hl].
  destruct (actionOfChar _) as [a|] eqn:Ha;
    [|intros _; do 4 right; by apply actionOfChar_None].
  destruct (Js.truthy (nth 1 _ _)) eqn:Hs; cbn [negb]; [discriminate|].
  intros _. do 3 right; left. by apply truthy_false.
Qed.

Lemma parse_malformed_witness :
  malformed (JsStr "ea:abc12345") /\
  parseExecApprovalCallbackData (JsStr "ea:abc12345") = None.
Proof.
  assert (H : malformed (JsStr "ea:abc12345")).
  { unfold malformed. right; right; left. vm_compute. lia. }
  split; [exact H | exact (parse_malformed_is_null _ H)].
Defined.

(** ** Filter *)

Section FilterFacts.

Variable RegExp : Type.
Variable RegExp_new : string -> option RegExp.
Variable RegExp_test : RegExp -> string -> bool.

Lemma sessionPatternMatches_normal (session p : string) :
  exists b, sessionPatternMatches RegExp RegExp_new RegExp_test session p = Normal b.
Proof.
  unfold sessionPatternMatches.
  destruct (Js.includes session p); [by eexists|].
  destruct (RegExp_new p); by eexists.
Qed.

Lemma some_normal {A} (cb : A -> Completion bool) (l : list A) :
  (forall x, exists b, cb x = Normal b) -> exists b, some cb l = Normal b.
Proof.
  intros Hcb. induction l as [|x l IH]; simpl; [by eexists|].
  destruct (Hcb x) as [[|] ->]; [by eexists | exact IH].
Qed.

Lemma some_member_true {A} (cb : A -> Completion bool) (l : list A) (p : A) :
  (forall x, exists b, cb x = Normal b) -> In p l -> cb p = Normal true ->
  some cb l = Normal true.
Proof.
  intros Hcb Hin Hp. induction l as [|x l IH]; [destruct Hin|].
  simpl. destruct (Hcb x) as [[|] Hx]; rewrite Hx; [reflexivity|].
  destruct Hin as [->|Hin]; [congruence | by apply IH].
Qed.

Lemma shouldHandle_never_throws (config : TelegramExecApprovalConfig)
    (req : ExecApprovalRequest) :
  exists b, shouldHandle RegExp RegExp_new RegExp_test config req = Normal b.
Proof.
  unfold shouldHandle.
  destruct (negb (enabled config)); [by eexists|].
  destruct (negb (has_length (approvers config))); [by eexists|].
  destruct (has_length (agentFilter config) && _); [by eexists|].
  destruct (has_length (sessionFilter config)); [|by eexists].
  destruct (negb (truthy_opt _)); [by eexists|].
  destruct (some_normal
              (sessionPatternMatches RegExp RegExp_new RegExp_test
                 (default "" (sessionKey (request req))))
              (default [] (sessionFilter config))
              (sessionPatternMatches_normal _)) as [b ->].
  destruct b; by eexists.
Qed.

(** C6: a [sessionFilter] pattern that is not a valid regular expression
    is matched as a literal substring, and [shouldHandle] does not throw:
    the callback's value for that pattern is [session.includes(p)]; a
    request that passes the other checks and whose session key contains
    the pattern is accepted; and when the pattern is the only one, the
    request is accepted exactly when its session key contains it. *)
Theorem invalid_pattern_falls_back_to_substring
    (config : TelegramExecApprovalConfig) (req : ExecApprovalRequest)
    (patterns : list string) (session p : string) :
  RegExp_new p = None ->
  enabled config = true ->
  has_length (approvers config) = true ->
  agentFilterRejects config req = false ->
  sessionFilter config = Some patterns ->
  In p patterns ->
  sessionKey (request req) = Some session ->
  Js.truthy session = true ->
  sessionPatternMatches RegExp RegExp_new RegExp_test session p
    = Normal (Js.includes session p)
  /\ (exists b, shouldHandle RegExp RegExp_new RegExp_test config req = Normal b)
  /\ (Js.includes session p = true ->
      shouldHandle RegExp RegExp_new RegExp_test config req = Normal true)
  /\ (patterns = [p] ->
      shouldHandle RegExp RegExp_new RegExp_test config req
        = Normal (Js.includes session p)).
Proof.
  intros Hinvalid Hen Happ Hagent Hfilter Hin Hkey Htruthy.
  assert (Hcb : sessionPatternMatches RegExp RegExp_new RegExp_test session p
                = Normal (Js.includes session p)).
  { unfold sessionPatternMatches. rewrite Hinvalid.
    by destruct (Js.includes session p). }
  assert (Hlen : has_length (sessionFilter config) = true).
  { rewrite Hfilter. destruct patterns; [destruct Hin | reflexivity]. }
  assert (Hshape : shouldHandle RegExp RegExp_new RegExp_test config req
    = match some (sessionPatternMatches RegExp RegExp_new RegExp_test session) patterns with
      | Normal matches => if negb matches then Normal false else Normal true
      | Throw e => Throw e
      end).
  { unfold shouldHandle. unfold agentFilterRejects in Hagent.
    rewrite Hen, Happ, Hagent, Hlen, Hfilter, Hkey. cbn [negb truthy_opt default].
    by rewrite Htruthy. }
  split; [exact Hcb|]. split; [apply shouldHandle_never_throws|]. split.
  - intros Hinc. rewrite Hshape.
    rewrite (some_member_true _ patterns p); [reflexivity | | exact Hin |].
    + apply sessionPatternMatches_normal.
    + by rewrite Hcb, Hinc.
  - intros ->. rewrite Hshape. cbn [some]. rewrite Hcb.
    by destruct (Js.includes session p).
Qed.

End FilterFacts.

Lemma invalid_pattern_witness :
  shouldHandle string Example.RegExp_new Example.RegExp_test Example.invalidFilterConfig
    (Example.requestOf "test-id" (Some "test-agent") (Some "[invalid(regex")) = Normal true
  /\ shouldHandle string Example.RegExp_new Example.RegExp_test Example.invalidFilterConfig
    (Example.requestOf "test-id" (Some "test-agent") (Some "something-else")) = Normal false.
Proof.
  split.
  - refine (proj1 (proj2 (proj2 (invalid_pattern_falls_back_to_substring
      string Example.RegExp_new Example.RegExp_test Example.invalidFilterConfig
      (Example.requestOf "test-id" (Some "test-agent") (Some "[invalid(regex"))
      ["[invalid(regex"] "[invalid(regex" "[invalid(regex"
      eq_refl eq_refl eq_refl eq_refl eq_refl (or_introl eq_refl) eq_refl eq_refl))) eq_refl).
  - refine (proj2 (proj2 (proj2 (invalid_pattern_falls_back_to_substring
      string Example.RegExp_new Example.RegExp_test Example.invalidFilterConfig
      (Example.requestOf "test-id" (Some "test-agent") (Some "something-else"))
      ["[invalid(regex"] "something-else" "[invalid(regex"
      eq_refl eq_refl eq_refl eq_refl eq_refl (or_introl eq_refl) eq_refl eq_refl))) eq_refl).
Defined.

(** ** Handler: resolution and timeout *)

Ltac run_handler :=
  cbv beta iota zeta delta
    [handleApprovalResolved handleApprovalTimeout resolveApproval handleCallbackQuery
     updateMessage fireTimeout deliverEvent handleGatewayEvent handleApprovalRequested
     resumeApprovalRequested notifyNext start stop step setTimeout clearTimeout
     logDebug logError bind gets modify emit ret value after emitted];
  cbn [gatewayClient pending requestCache shortIdMap started timers nextTimeout
       suspended set_gatewayClient set_pending set_requestCache set_shortIdMap
       set_started set_timers set_nextTimeout set_suspended].

Section EventLoop.

Variable RegExp : Type.
Variable RegExp_new : string -> option RegExp.
Variable RegExp_test : RegExp -> string -> bool.
Variable String_of_number : Z -> string.
Variable config : TelegramExecApprovalConfig.

Local Abbreviation reachable_ :=
  (reachable RegExp RegExp_new RegExp_test String_of_number config).

(** Running inputs leads from a reachable state to a reachable state. *)
Lemma reachable_run (inputs : list Input) (s : State) :
  reachable_ s ->
  reachable_ (after (run RegExp RegExp_new RegExp_test String_of_number config inputs s)).
Proof.
  revert s. induction inputs as [|i inputs IH]; intros s Hs; [exact Hs|].
  cbn [run]. unfold bind. cbn [after]. apply IH. by constructor.
Qed.

End EventLoop.

Lemma resolved_absent (resolved : ExecApprovalResolved) (edit : Outcome) (s : State) :
  pending s !! res_id resolved = None ->
  handleApprovalResolved resolved edit s = ran tt s [].
Proof. intros H. run_handler. by rewrite H. Qed.

Lemma timeout_absent (approvalId : string) (edit : Outcome) (s : State) :
  pending s !! approvalId = None ->
  handleApprovalTimeout approvalId edit s = ran tt s [].
Proof. intros H. run_handler. by rewrite H. Qed.

(** What a resolution does to an outstanding request: the timeout of
    the entry is cleared, the three maps forget the request, and the one
    message of the entry is edited when the request is still cached. *)
Lemma resolved_present (resolved : ExecApprovalResolved) (edit : Outcome) (s : State)
    (entry : PendingApproval) :
  pending s !! res_id resolved = Some entry ->
  after (handleApprovalResolved resolved edit s) =
    set_shortIdMap (delete (Js.slice0 8 (res_id resolved)))
      (set_requestCache (delete (res_id resolved))
        (set_pending (delete (res_id resolved))
          (set_timers (delete (timeoutId entry)) s)))
  /\ edits (emitted (handleApprovalResolved resolved edit s)) =
     match requestCache s !! res_id resolved with
     | Some req => [EditMessageText (telegramChatId entry) (telegramMessageId entry)
                      (ResolvedMessage req (decision resolved) (resolvedBy resolved)) []]
     | None => []
     end.
Proof.
  intros H. run_handler. rewrite H. cbn.
  destruct (requestCache s !! res_id resolved); [destruct edit|]; by cbn.
Qed.

(** The same for a timeout, which clears no timeout. *)
Lemma timeout_present (approvalId : string) (edit : Outcome) (s : State)
    (entry : PendingApproval) :
  pending s !! approvalId = Some entry ->
  after (handleApprovalTimeout approvalId edit s) =
    set_shortIdMap (delete (Js.slice0 8 approvalId))
      (set_requestCache (delete approvalId)
        (set_pending (delete approvalId) s))
  /\ edits (emitted (handleApprovalTimeout approvalId edit s)) =
     match requestCache s !! approvalId with
     | Some req => [EditMessageText (telegramChatId entry) (telegramMessageId entry)
                      (ExpiredMessage req) []]
     | None => []
     end.
Proof.
  intros H. run_handler. rewrite H. cbn.
  destruct (requestCache s !! approvalId); [destruct edit|]; by cbn.
Qed.

(** X29: for a request id that has a pending entry and whose request is
    cached, the remote resolution and the timeout, applied in either
    order, are such that the first removes the pending entry and edits
    the recorded message once, and the second finds no entry and does
    nothing; and a resolution for an id without a pending entry changes
    nothing. *)
Theorem resolve_and_timeout_race (s : State) (resolved : ExecApprovalResolved)
    (edit1 edit2 : Outcome) (entry : PendingApproval) (req : ExecApprovalRequest) :
  pending s !! res_id resolved = Some entry ->
  requestCache s !! res_id resolved = Some req ->
  let approvalId := res_id resolved in
  let r1 := handleApprovalResolved resolved edit1 s in
  let r2 := handleApprovalTimeout approvalId edit2 (after r1) in
  let t1 := handleApprovalTimeout approvalId edit1 s in
  let t2 := handleApprovalResolved resolved edit2 (after t1) in
  (pending (after r1) !! approvalId = None
   /\ edits (emitted r1) =
        [EditMessageText (telegramChatId entry) (telegramMessageId entry)
           (ResolvedMessage req (decision resolved) (resolvedBy resolved)) []]
   /\ r2 = ran tt (after r1) [])
  /\ (pending (after t1) !! approvalId = None
      /\ edits (emitted t1) =
           [EditMessageText (telegramChatId entry) (telegramMessageId entry)
              (ExpiredMessage req) []]
      /\ t2 = ran tt (after t1) [])
  /\ (forall (s' : State) (edit : Outcome),
        pending s' !! approvalId = None ->
        handleApprovalResolved resolved edit s' = ran tt s' []).
Proof.
  intros Hp Hc approvalId r1 r2 t1 t2.
  destruct (resolved_present resolved edit1 s entry Hp) as [Hs1 He1].
  destruct (timeout_present approvalId edit1 s entry Hp) as [Hs2 He2].
  fold approvalId in Hc, Hs1, He1. fold r1 in Hs1, He1. fold t1 in Hs2, He2.
  rewrite Hc in He1, He2.
  assert (H1 : pending (after r1) !! approvalId = None)
    by (rewrite Hs1; cbn; apply lookup_delete_eq).
  assert (H2 : pending (after t1) !! approvalId = None)
    by (rewrite Hs2; cbn; apply lookup_delete_eq).
  repeat split; try assumption.
  - by apply timeout_absent.
  - by apply resolved_absent.
  - intros s' edit H. by apply resolved_absent.
Qed.

Lemma resolve_and_timeout_race_witness :
  let s := after (Example.runWith Example.twoApprovers Example.notifiedBoth) in
  edits (emitted (handleApprovalResolved Example.resolvedA Fulfilled s)) =
    [EditMessageText "456" 12
       (ResolvedMessage Example.requestA AllowOnce (Some "operator")) []]
  /\ handleApprovalTimeout "abc12345-6789-def0" Fulfilled
       (after (handleApprovalResolved Example.resolvedA Fulfilled s))
     = ran tt (after (handleApprovalResolved Example.resolvedA Fulfilled s)) [].
Proof.
  intros s.
  pose proof (resolve_and_timeout_race s Example.resolvedA Fulfilled Fulfilled
    {| telegramMessageId := 12; telegramChatId := "456"; timeoutId := 1 |}
    Example.requestA eq_refl eq_refl) as [[_ [H1 H2]] _].
  split; [exact H1 | exact H2].
Defined.

(** C1: the handler can hold a pending entry whose request is no longer
    cached, and then the claim fails.  [handleApprovalRequested] writes
    the pending entry after each [await api.sendMessage] without looking
    at the request again: when the notification of the second approver
    settles after the resolution of the request, the entry is written
    anew, for message 12 and with a fresh timeout, while the request
    cache has forgotten the request.  In either order the handler that
    removes this entry returns at [if (!request) return] before any
    edit.  When the fresh timeout fires, the entry goes and message 12
    keeps its text and its buttons: the only edit of the whole run is
    that of message 11. *)
Theorem race_without_cached_request :
  let s := after (Example.runWith Example.twoApprovers Example.resolvedWhileNotifying) in
  let r1 := handleApprovalResolved Example.resolvedA Fulfilled s in
  let r2 := handleApprovalTimeout "abc12345-6789-def0" Fulfilled (after r1) in
  let t1 := handleApprovalTimeout "abc12345-6789-def0" Fulfilled s in
  let t2 := handleApprovalResolved Example.resolvedA Fulfilled (after t1) in
  let fired := Example.runWith Example.twoApprovers
                 (Example.resolvedWhileNotifying ++ [TimeoutFires 1 Fulfilled]) in
  reachable string Example.RegExp_new Example.RegExp_test Example.String_of_number
    Example.twoApprovers s
  /\ pending s !! "abc12345-6789-def0"
     = Some {| telegramMessageId := 12; telegramChatId := "456"; timeoutId := 1 |}
  /\ requestCache s !! "abc12345-6789-def0" = None
  /\ timers s !! 1%nat = Some ("abc12345-6789-def0", 57999%Z)
  /\ edits (emitted r1) ++ edits (emitted r2) = []
  /\ edits (emitted t1) ++ edits (emitted t2) = []
  /\ pending (after fired) !! "abc12345-6789-def0" = None
  /\ edits (emitted fired)
     = [EditMessageText "123" 11
          (ResolvedMessage Example.requestA AllowOnce (Some "operator")) []].
Proof.
  intros s r1 r2 t1 t2 fired. split; [|by vm_compute].
  apply (reachable_run string Example.RegExp_new Example.RegExp_test
           Example.String_of_number Example.twoApprovers
           Example.resolvedWhileNotifying initial).
  apply reachable_initial.
Qed.

(** ** Handler: inbound callbacks *)

Section CallbackFacts.

Variable RegExp : Type.
Variable RegExp_new : string -> option RegExp.
Variable RegExp_test : RegExp -> string -> bool.
Variable String_of_number : Z -> string.
Variable config : TelegramExecApprovalConfig.

Local Abbreviation step_ := (step RegExp RegExp_new RegExp_test String_of_number config).
Local Abbreviation reachable_ :=
  (reachable RegExp RegExp_new RegExp_test String_of_number config).
Local Abbreviation callbackQuery := (handleCallbackQuery String_of_number config).
Local Abbreviation String_ := (String_of String_of_number).

(** A callback never changes the handler's state. *)
Lemma callback_state (shortId : string) (action : ExecApprovalDecision)
    (userId : option string) (gw : Outcome) (s : State) :
  after (callbackQuery shortId action userId gw s) = s.
Proof.
  run_handler.
  destruct (truthy_opt (shortIdMap s !! shortId)); cbn; [|reflexivity].
  destruct (truthy_opt userId && _); cbn; [reflexivity|].
  destruct (gatewayClient s); cbn; [|reflexivity].
  destruct gw; reflexivity.
Qed.

(** A callback for a short id that the index does not map is refused. *)
Lemma callback_unmapped (shortId : string) (action : ExecApprovalDecision)
    (userId : option string) (gw : Outcome) (s : State) :
  shortIdMap s !! shortId = None ->
  value (callbackQuery shortId action userId gw s) = false
  /\ gatewayRequests (emitted (callbackQuery shortId action userId gw s)) = [].
Proof. intros H. run_handler. by rewrite H. Qed.

Lemma not_member_existsb (u : string) (l : list Approver) :
  (forall a, In a l -> String_ a <> u) ->
  existsb (fun a => String.eqb (String_ a) u) l = false.
Proof.
  intros H. induction l as [|a l IH]; [reflexivity|]. cbn [existsb].
  rewrite IH by (intros b Hb; apply H; by right).
  destruct (String.eqb_spec (String_ a) u) as [E|_]; [|reflexivity].
  exfalso. apply (H a); [by left | exact E].
Qed.

Lemma member_existsb (u : string) (l : list Approver) (a : Approver) :
  In a l -> String_ a = u ->
  existsb (fun a => String.eqb (String_ a) u) l = true.
Proof.
  intros Hin E. apply existsb_exists. exists a. split; [exact Hin|].
  by apply String.eqb_eq.
Qed.

(** C2, amended: a callback for a mapped short id whose user identifier
    is given, is not empty and is not among the configured approvers is
    ignored: the handler returns [false], sends no resolve request to
    the gateway and leaves its state as it was. *)
Theorem unauthorized_callback_ignored (s : State) (shortId fullId u : string)
    (action : ExecApprovalDecision) (gw : Outcome) :
  shortIdMap s !! shortId = Some fullId ->
  Js.truthy u = true ->
  (forall a, In a (approvers_or_empty config) -> String_ a <> u) ->
  value (callbackQuery shortId action (Some u) gw s) = false
  /\ gatewayRequests (emitted (callbackQuery shortId action (Some u) gw s)) = []
  /\ after (callbackQuery shortId action (Some u) gw s) = s.
Proof.
  intros Hmap Hu Hnot.
  split; [|split; [|apply callback_state]].
  - run_handler. rewrite Hmap. cbn. destruct (Js.truthy fullId); cbn; [|reflexivity].
    by rewrite Hu, not_member_existsb.
  - run_handler. rewrite Hmap. cbn. destruct (Js.truthy fullId); cbn; [|reflexivity].
    by rewrite Hu, not_member_existsb.
Qed.

(** An empty user identifier is as good as none: the approver list is
    not consulted. *)
Lemma callback_empty_user (s : State) (shortId : string)
    (action : ExecApprovalDecision) (gw : Outcome) :
  callbackQuery shortId action (Some "") gw s = callbackQuery shortId action None gw s.
Proof. reflexivity. Qed.

(** The handler holds a gateway client whenever the short-id index is
    not empty. *)
Lemma step_keeps_client_with_short_ids (i : Input) (s : State) :
  (gatewayClient s = false -> shortIdMap s = ∅) ->
  gatewayClient (after (step_ i s)) = false -> shortIdMap (after (step_ i s)) = ∅.
Proof.
  intros Inv. destruct i as [| |evt now edit|k r now|h edit|shortId action userId gw].
  - run_handler. destruct (started s); cbn; [exact Inv|].
    destruct (negb (enabled config)); cbn; [exact Inv|].
    destruct (negb (has_length (approvers config))); cbn; [exact Inv|discriminate].
  - run_handler. destruct (started s); cbn; [|exact Inv].
    destruct (gatewayClient s); reflexivity.
  - unfold step, deliverEvent, bind, gets. cbn.
    destruct (gatewayClient s) eqn:Hc; cbn; [|intros _; by apply Inv].
    destruct evt as [req|resolved|name]; run_handler.
    + destruct (shouldHandle RegExp RegExp_new RegExp_test config req) as [[|]|];
        cbn; try congruence.
      destruct (approvers_or_empty config); cbn; congruence.
    + destruct (pending s !! res_id resolved); cbn; [|congruence].
      destruct (requestCache s !! res_id resolved); cbn; [|congruence].
      destruct edit; cbn; congruence.
    + congruence.
  - run_handler. destruct (suspended s !! k) as [task|]; cbn; [|exact Inv].
    destruct r as [[mid|]|err]; cbn; [destruct (mid =? 0)%Z; cbn| |];
      destruct (sus_rest task); cbn; exact Inv.
  - run_handler. destruct (timers s !! h) as [[approvalId ms]|]; cbn; [|exact Inv].
    destruct (pending s !! approvalId); cbn; [|exact Inv].
    destruct (requestCache s !! approvalId); cbn; [destruct edit; cbn|];
      intros Hc; rewrite (Inv Hc); apply delete_empty.
  - unfold step, bind, ret. cbn [after]. rewrite callback_state. exact Inv.
Qed.

Lemma reachable_client_with_short_ids (s : State) :
  reachable_ s -> gatewayClient s = false -> shortIdMap s = ∅.
Proof.
  induction 1 as [|s i _ IH]; [reflexivity|].
  by apply step_keeps_client_with_short_ids.
Qed.

(** With a client, a mapped short id and a user that passes the check,
    the resolve request goes out. *)
Lemma callback_proceeds (s : State) (shortId fullId : string)
    (action : ExecApprovalDecision) (userId : option string) (gw : Outcome) :
  shortIdMap s !! shortId = Some fullId ->
  Js.truthy fullId = true ->
  truthy_opt userId
  && negb (existsb (fun a => String.eqb (String_ a) (default "" userId))
             (approvers_or_empty config)) = false ->
  callbackQuery shortId action userId gw s = resolveApproval fullId action gw s
  /\ (gatewayClient s = true ->
      gatewayRequests (emitted (callbackQuery shortId action userId gw s))
      = [GatewayRequest fullId action]).
Proof.
  intros Hmap Hfull Hauth.
  assert (E : callbackQuery shortId action userId gw s = resolveApproval fullId action gw s).
  { run_handler. rewrite Hmap. cbn. rewrite Hfull. cbn. rewrite Hauth. cbn.
    destruct (gatewayClient s); cbn; [by destruct gw | reflexivity]. }
  split; [exact E|]. intros Hc. rewrite E. run_handler. rewrite Hc. cbn.
  by destruct gw.
Qed.

(** C8: a callback for a mapped short id that carries no user identifier
    is not checked against the approver list: it is exactly a call of
    [resolveApproval] for the full id, and the resolve request is sent to
    the gateway. *)
Theorem callback_without_user_is_not_checked (s : State) (shortId fullId : string)
    (action : ExecApprovalDecision) (gw : Outcome) :
  reachable_ s ->
  shortIdMap s !! shortId = Some fullId ->
  Js.truthy fullId = true ->
  callbackQuery shortId action None gw s = resolveApproval fullId action gw s
  /\ gatewayRequests (emitted (callbackQuery shortId action None gw s))
     = [GatewayRequest fullId action].
Proof.
  intros Hreach Hmap Hfull.
  destruct (callback_proceeds s shortId fullId action None gw Hmap Hfull eq_refl)
    as [E Hreq].
  split; [exact E|]. apply Hreq.
  destruct (gatewayClient s) eqn:Hc; [reflexivity|].
  rewrite (reachable_client_with_short_ids s Hreach Hc) in Hmap.
  by rewrite lookup_empty in Hmap.
Qed.

End CallbackFacts.

Lemma unauthorized_callback_witness :
  let s := after (Example.runWith Example.oneApprover Example.notifiedOne) in
  value (handleCallbackQuery Example.String_of_number Example.oneApprover
           "abc12345" Deny (Some "999") Fulfilled s) = false
  /\ gatewayRequests (emitted (handleCallbackQuery Example.String_of_number
       Example.oneApprover "abc12345" Deny (Some "999") Fulfilled s)) = [].
Proof.
  intros s.
  destruct (unauthorized_callback_ignored Example.String_of_number Example.oneApprover
              s "abc12345" "abc12345-6789-def0" "999" Deny Fulfilled) as [H1 [H2 _]].
  - reflexivity.
  - reflexivity.
  - intros a [<-|[]]. discriminate.
  - split; [exact H1 | exact H2].
Defined.

(** C2 as stated fails for the empty user identifier: it is the
    identifier of no approver, and the check [userId && ...] lets it
    through, so that the resolve request for the pending request is sent
    and the handler reports success. *)
Lemma empty_user_id_is_not_checked :
  let s := after (Example.runWith Example.oneApprover Example.notifiedOne) in
  let r := handleCallbackQuery Example.String_of_number Example.oneApprover
             "abc12345" Deny (Some "") Fulfilled s in
  shortIdMap s !! "abc12345" = Some "abc12345-6789-def0"
  /\ pending s !! "abc12345-6789-def0"
     = Some {| telegramMessageId := 11; telegramChatId := "123"; timeoutId := 0 |}
  /\ (forall a, In a (approvers_or_empty Example.oneApprover) ->
        String_of Example.String_of_number a <> "")
  /\ value r = true
  /\ gatewayRequests (emitted r) = [GatewayRequest "abc12345-6789-def0" Deny].
Proof.
  intros s r. repeat split; try by vm_compute.
  intros a [<-|[]]. discriminate.
Qed.

Lemma callback_without_user_witness :
  let s := after (Example.runWith Example.oneApprover Example.notifiedOne) in
  gatewayRequests (emitted (handleCallbackQuery Example.String_of_number
     Example.oneApprover "abc12345" AllowOnce None Fulfilled s))
  = [GatewayRequest "abc12345-6789-def0" AllowOnce].
Proof.
  intros s.
  refine (proj2 (callback_without_user_is_not_checked string Example.RegExp_new
    Example.RegExp_test Example.String_of_number Example.oneApprover
    s "abc12345" "abc12345-6789-def0" AllowOnce Fulfilled _ eq_refl eq_refl)).
  apply (reachable_run string Example.RegExp_new Example.RegExp_test
           Example.String_of_number Example.oneApprover Example.notifiedOne initial).
  apply reachable_initial.
Defined.

(** ** Handler: the short-id index *)

Section ShortIdFacts.

Variable RegExp : Type.
Variable RegExp_new : string -> option RegExp.
Variable RegExp_test : RegExp -> string -> bool.
Variable String_of_number : Z -> string.
Variable config : TelegramExecApprovalConfig.

Local Abbreviation run_ := (run RegExp RegExp_new RegExp_test String_of_number config).
Local Abbreviation callbackQuery := (handleCallbackQuery String_of_number config).
Local Abbreviation String_ := (String_of String_of_number).

(** C9: resolving or timing out a pending request [A] deletes the
    short-id entry of [A]'s eight-character prefix whatever it maps to;
    a request [B] with the same prefix keeps its pending entry, and every
    callback that carries the prefix is then refused without a resolve
    request. *)
Theorem resolution_drops_shared_short_id (s : State) (resolved : ExecApprovalResolved)
    (edit : Outcome) (entry : PendingApproval) (B : string)
    (action : ExecApprovalDecision) (userId : option string) (gw : Outcome) :
  pending s !! res_id resolved = Some entry ->
  Js.slice0 8 B = Js.slice0 8 (res_id resolved) ->
  B <> res_id resolved ->
  let A := res_id resolved in
  let s1 := after (handleApprovalResolved resolved edit s) in
  let s2 := after (handleApprovalTimeout A edit s) in
  (shortIdMap s1 !! Js.slice0 8 A = None
   /\ pending s1 !! B = pending s !! B
   /\ value (callbackQuery (Js.slice0 8 B) action userId gw s1) = false
   /\ gatewayRequests (emitted (callbackQuery (Js.slice0 8 B) action userId gw s1)) = [])
  /\ (shortIdMap s2 !! Js.slice0 8 A = None
      /\ pending s2 !! B = pending s !! B
      /\ value (callbackQuery (Js.slice0 8 B) action userId gw s2) = false
      /\ gatewayRequests (emitted (callbackQuery (Js.slice0 8 B) action userId gw s2)) = []).
Proof.
  intros Hp Hprefix Hne A s1 s2.
  destruct (resolved_present resolved edit s entry Hp) as [Hs1 _].
  destruct (timeout_present A edit s entry Hp) as [Hs2 _].
  fold A in Hs1. fold s1 in Hs1. fold s2 in Hs2.
  assert (H1 : shortIdMap s1 !! Js.slice0 8 A = None)
    by (rewrite Hs1; cbn; apply lookup_delete_eq).
  assert (H2 : shortIdMap s2 !! Js.slice0 8 A = None)
    by (rewrite Hs2; cbn; apply lookup_delete_eq).
  split; (split; [assumption|]); (split; [|rewrite Hprefix; fold A; by apply callback_unmapped]).
  - rewrite Hs1. cbn. by apply lookup_delete_ne.
  - rewrite Hs2. cbn. by apply lookup_delete_ne.
Qed.

(** ** Handler: notifications that all fail *)

Lemma shouldHandle_approvers (req : ExecApprovalRequest) :
  shouldHandle RegExp RegExp_new RegExp_test config req = Normal true ->
  has_length (approvers config) = true.
Proof.
  unfold shouldHandle.
  destruct (negb (enabled config)); [discriminate|].
  by destruct (has_length (approvers config)).
Qed.

(** An accepted request is cached and indexed, and the first approver is
    sent the prompt; nothing is pending yet. *)
Lemma requested_accepted (req : ExecApprovalRequest) (now : Z) (s : State)
    (a : Approver) (rest : list Approver) :
  shouldHandle RegExp RegExp_new RegExp_test config req = Normal true ->
  approvers_or_empty config = a :: rest ->
  after (handleApprovalRequested RegExp RegExp_new RegExp_test String_of_number config
           req now s)
  = set_suspended
      (fun l => l ++ [{| sus_request := req;
                         sus_messageText := ExecApprovalMessage req now;
                         sus_chatId := String_ a; sus_rest := rest |}])
      (set_shortIdMap <[Js.slice0 8 (req_id req) := req_id req]>
         (set_requestCache <[req_id req := req]> s)).
Proof. intros Hsh Happ. run_handler. rewrite Hsh. cbn. by rewrite Happ. Qed.

Lemma lookup_last_suspended (pre : list Suspended) (task : Suspended) :
  (pre ++ [task]) !! length pre = Some task.
Proof. by apply list_lookup_middle. Qed.

Lemma insert_last_suspended (pre : list Suspended) (task task' : Suspended) :
  <[length pre := task']> (pre ++ [task]) = pre ++ [task'].
Proof. rewrite insert_app_r_alt by lia. by rewrite Nat.sub_diag. Qed.

Lemma delete_last_suspended (pre : list Suspended) (task : Suspended) :
  delete (length pre) (pre ++ [task]) = pre.
Proof. rewrite delete_middle. apply app_nil_r. Qed.

(** A failed notification arms no timeout and records nothing: only the
    activation moves on to the next approver, or ends. *)
Lemma resume_failed (pre : list Suspended) (task : Suspended) (r : SendOutcome)
    (now : Z) (s : State) :
  suspended s = pre ++ [task] ->
  sendFailed r = true ->
  after (resumeApprovalRequested String_of_number (length pre) r now s)
  = set_suspended
      (fun _ => match sus_rest task with
                | [] => pre
                | a :: rest =>
                    pre ++ [{| sus_request := sus_request task;
                               sus_messageText := sus_messageText task;
                               sus_chatId := String_ a; sus_rest := rest |}]
                end) s.
Proof.
  intros Hsus Hfail. run_handler. rewrite Hsus, lookup_last_suspended. cbn.
  destruct r as [[mid|]|err]; cbn in Hfail |- *; [rewrite Hfail; cbn| |];
    destruct (sus_rest task) as [|a rest]; cbn; unfold set_suspended; cbn;
    by rewrite Hsus, ?delete_last_suspended, ?insert_last_suspended.
Qed.

Lemma run_failed_sends (pre : list Suspended) (settles : list (SendOutcome * Z)) :
  forall (task : Suspended) (s : State),
    suspended s = pre ++ [task] ->
    length settles = S (length (sus_rest task)) ->
    forallb (fun x => sendFailed (fst x)) settles = true ->
    after (run_ (map (fun x => SendSettled (length pre) (fst x) (snd x)) settles) s)
    = set_suspended (fun _ => pre) s.
Proof.
  induction settles as [|[r now] settles IH]; intros task s Hsus Hlen Hall;
    [discriminate|].
  cbn [forallb fst] in Hall. apply andb_true_iff in Hall as [Hr Hall].
  cbn [map run fst snd]. unfold bind. cbn [after step].
  rewrite (resume_failed pre task r now s Hsus Hr).
  destruct (sus_rest task) as [|a rest] eqn:Hrest.
  - destruct settles; [reflexivity | discriminate].
  - erewrite IH; [reflexivity | reflexivity | | exact Hall].
    cbn in Hlen |- *. lia.
Qed.

(** C10: when the gateway delivers a request that the filter accepts and
    every notification for it fails, no pending entry is created and no
    timeout is armed, yet the request stays cached and the short-id index
    maps its prefix to its id: a later callback of a configured approver
    with that short id makes the handler send a resolve request for it. *)
Theorem failed_notifications_keep_short_id (s : State) (req : ExecApprovalRequest)
    (now : Z) (edit : Outcome) (settles : list (SendOutcome * Z))
    (a : Approver) (action : ExecApprovalDecision) (gw : Outcome) :
  gatewayClient s = true ->
  shouldHandle RegExp RegExp_new RegExp_test config req = Normal true ->
  Js.truthy (req_id req) = true ->
  length settles = length (approvers_or_empty config) ->
  forallb (fun x => sendFailed (fst x)) settles = true ->
  In a (approvers_or_empty config) ->
  let s' :=
    after (run_ (OnEvent (ExecApprovalRequestedEvent req) now edit
                 :: map (fun x => SendSettled (length (suspended s)) (fst x) (snd x))
                      settles) s) in
  pending s' = pending s
  /\ timers s' = timers s
  /\ suspended s' = suspended s
  /\ requestCache s' !! req_id req = Some req
  /\ shortIdMap s' !! Js.slice0 8 (req_id req) = Some (req_id req)
  /\ gatewayRequests
       (emitted (callbackQuery (Js.slice0 8 (req_id req)) action (Some (String_ a)) gw s'))
     = [GatewayRequest (req_id req) action].
Proof.
  intros Hclient Hsh Hid Hlen Hall Ha s'.
  pose proof (shouldHandle_approvers req Hsh) as Happ.
  destruct (approvers_or_empty config) as [|a0 rest] eqn:Hlist.
  { unfold approvers_or_empty in Hlist. destruct (approvers config) as [[|]|]; discriminate. }
  assert (Hs' : s' = set_suspended (fun _ => suspended s)
                       (set_shortIdMap <[Js.slice0 8 (req_id req) := req_id req]>
                          (set_requestCache <[req_id req := req]> s))).
  { subst s'. cbn [run]. unfold bind at 1. cbn [after step].
    unfold deliverEvent, bind, gets. cbn [value after]. rewrite Hclient.
    cbn [handleGatewayEvent].
    rewrite (requested_accepted req now s a0 rest Hsh Hlist).
    erewrite (run_failed_sends (suspended s)); [reflexivity | reflexivity | | exact Hall].
    cbn in Hlen |- *. exact Hlen. }
  assert (Hmap : shortIdMap s' !! Js.slice0 8 (req_id req) = Some (req_id req))
    by (rewrite Hs'; cbn; apply lookup_insert_eq).
  assert (Hc' : gatewayClient s' = true) by (by rewrite Hs').
  split; [by rewrite Hs'|]. split; [by rewrite Hs'|]. split; [by rewrite Hs'|].
  split; [rewrite Hs'; cbn; apply lookup_insert_eq|]. split; [exact Hmap|].
  refine (proj2 (callback_proceeds String_of_number config s' _ _ action
                   (Some (String_ a)) gw Hmap Hid _) Hc').
  cbn [default]. rewrite (member_existsb String_of_number (String_ a) _ a);
    [apply andb_false_r | by rewrite Hlist | reflexivity].
Qed.

End ShortIdFacts.

Lemma resolution_drops_shared_short_id_witness :
  let s := after (Example.runWith Example.oneApprover Example.twoRequestsOnePrefix) in
  let s1 := after (handleApprovalResolved Example.resolvedA Fulfilled s) in
  shortIdMap s !! "abc12345" = Some "abc12345-ffff-0000"
  /\ pending s1 !! "abc12345-ffff-0000"
     = Some {| telegramMessageId := 12; telegramChatId := "123"; timeoutId := 1 |}
  /\ value (handleCallbackQuery Example.String_of_number Example.oneApprover
              "abc12345" AllowOnce (Some "123") Fulfilled s1) = false.
Proof.
  intros s s1.
  destruct (resolution_drops_shared_short_id Example.String_of_number
              Example.oneApprover s Example.resolvedA Fulfilled
              {| telegramMessageId := 11; telegramChatId := "123"; timeoutId := 0 |}
              "abc12345-ffff-0000" AllowOnce (Some "123") Fulfilled)
    as [[_ [Hp [Hv _]]] _].
  - reflexivity.
  - reflexivity.
  - discriminate.
  - split; [reflexivity|]. split; [|exact Hv].
    fold s1 in Hp. rewrite Hp. reflexivity.
Defined.

Lemma failed_notifications_witness :
  let s := after (Example.runWith Example.twoApprovers [CallStart]) in
  let s' := after (run string Example.RegExp_new Example.RegExp_test
                     Example.String_of_number Example.twoApprovers
                     [OnEvent (ExecApprovalRequestedEvent Example.requestA) 1000 Fulfilled;
                      SendSettled 0 (SendRejected "ETELEGRAM") 1001;
                      SendSettled 0 (SendFulfilled None) 1002] s) in
  pending s' = pending s
  /\ timers s' = timers s
  /\ gatewayRequests
       (emitted (handleCallbackQuery Example.String_of_number Example.twoApprovers
                   "abc12345" AllowAlways (Some "456") Fulfilled s'))
     = [GatewayRequest "abc12345-6789-def0" AllowAlways].
Proof.
  intros s s'.
  destruct (failed_notifications_keep_short_id string Example.RegExp_new
              Example.RegExp_test Example.String_of_number Example.twoApprovers
              s Example.requestA 1000 Fulfilled
              [(SendRejected "ETELEGRAM", 1001%Z); (SendFulfilled None, 1002%Z)]
              (ApproverNum 456) AllowAlways Fulfilled)
    as [Hp [Ht [_ [_ [_ Hg]]]]].
  - reflexivity.
  - reflexivity.
  - reflexivity.
  - reflexivity.
  - reflexivity.
  - right. by left.
  - split; [exact Hp|]. split; [exact Ht | exact Hg].
Defined.

(** ** Handler: several approvers *)

(** What the entry's own timeout handle is worth: a resolution clears
    it, and stopping clears the handle of every entry. *)
Lemma resolved_clears_recorded_timeout (resolved : ExecApprovalResolved) (edit : Outcome)
    (s : State) (entry : PendingApproval) :
  pending s !! res_id resolved = Some entry ->
  timers (after (handleApprovalResolved resolved edit s)) !! timeoutId entry = None.
Proof.
  intros Hp. destruct (resolved_present resolved edit s entry Hp) as [-> _].
  cbn. apply lookup_delete_eq.
Qed.

(** C3: with two approvers that were both notified of one request, the
    pending entry holds the message of the second approver only; the
    resolution (and likewise the timeout) edits that one message, and the
    message of the first approver keeps its text and its buttons. *)
Theorem only_last_recipient_is_recorded :
  let s := after (Example.runWith Example.twoApprovers Example.notifiedBoth) in
  map_to_list (pending s)
    = [("abc12345-6789-def0",
        {| telegramMessageId := 12; telegramChatId := "456"; timeoutId := 1 |})]
  /\ edits (emitted (Example.runWith Example.twoApprovers Example.notifiedBothThenResolved))
     = [EditMessageText "456" 12
          (ResolvedMessage Example.requestA AllowOnce (Some "operator")) []]
  /\ edits (emitted (Example.runWith Example.twoApprovers
                       (Example.notifiedBoth ++ [TimeoutFires 1 Fulfilled])))
     = [EditMessageText "456" 12 (ExpiredMessage Example.requestA) []].
Proof. vm_compute. repeat split. Qed.

(** A notification that settles after the resolution writes a pending
    entry for a request that is no longer cached; the timeout it arms
    later removes the entry without an edit. *)
Lemma late_notification_revives_entry :
  let s := after (Example.runWith Example.twoApprovers Example.resolvedWhileNotifying) in
  pending s !! "abc12345-6789-def0"
    = Some {| telegramMessageId := 12; telegramChatId := "456"; timeoutId := 1 |}
  /\ requestCache s !! "abc12345-6789-def0" = None
  /\ emitted (fireTimeout 1 Fulfilled s) = []
  /\ pending (after (fireTimeout 1 Fulfilled s)) = ∅.
Proof. by vm_compute. Qed.

(** C4: with two approvers that were both notified of one request, two
    timeouts are armed and the entry records the second; after the
    resolution, and after a stop as well, no entry is pending and the
    first timeout is still armed. *)
Theorem first_timeout_stays_armed :
  let armed := after (Example.runWith Example.twoApprovers Example.notifiedBoth) in
  let resolved :=
    after (Example.runWith Example.twoApprovers Example.notifiedBothThenResolved) in
  let stopped :=
    after (Example.runWith Example.twoApprovers Example.notifiedBothThenStopped) in
  (timers armed !! 0%nat = Some ("abc12345-6789-def0", 58999%Z)
   /\ timers armed !! 1%nat = Some ("abc12345-6789-def0", 58998%Z)
   /\ timeoutId <$> pending armed !! "abc12345-6789-def0" = Some 1%nat)
  /\ (pending resolved = ∅ /\ dangling resolved 0)
  /\ (pending stopped = ∅ /\ dangling stopped 0).
Proof.
  intros armed resolved stopped.
  split; [by vm_compute|].
  split; (split; [by vm_compute|]);
    exists "abc12345-6789-def0", 58999%Z; split; by vm_compute.
Qed.

(** ** The repository's own tests, replayed on the model *)

Example build_examples :
  buildExecApprovalCallbackData "abc12345-6789-def0" AllowOnce = "ea:abc12345:o"
  /\ buildExecApprovalCallbackData "xyz98765-4321-abcd" AllowAlways = "ea:xyz98765:a"
  /\ buildExecApprovalCallbackData "test1234-5678-9abc" Deny = "ea:test1234:d"
  /\ buildExecApprovalCallbackData "verylongapprovalidstring" AllowOnce = "ea:verylong:o".
Proof. vm_compute. repeat split. Qed.

Example parse_examples :
  map parseExecApprovalCallbackData
    [JsStr "ea:abc12345:o"; JsStr "ea:xyz98765:a"; JsStr "ea:test1234:d";
     JsStr "wrong:abc12345:o"; JsStr "execapproval:abc12345:o";
     JsStr "ea:abc12345:x"; JsStr "ea:abc12345:allow"; JsStr "ea:abc12345";
     JsStr "ea::o"; JsStr "ea:"; JsStr ""; JsNull; JsUndefined]
  = [Some ("abc12345", AllowOnce); Some ("xyz98765", AllowAlways);
     Some ("test1234", Deny); None; None; None; None; None; None; None; None;
     None; None].
Proof. reflexivity. Qed.

Example isExecApprovalCallbackData_examples :
  map isExecApprovalCallbackData
    [JsStr "ea:abc12345:o"; JsStr "pagination:next"; JsStr ""; JsNull; JsUndefined]
  = [true; false; false; false; false].
Proof. reflexivity. Qed.

Example shouldHandle_examples :
  let handle config agent session :=
    shouldHandle string Example.RegExp_new Example.RegExp_test config
      (Example.requestOf "test-id" agent session) in
  let telegram := Some "agent:test-agent:telegram:123" in
  let agents filter :=
    {| enabled := true; approvers := Some [ApproverStr "123"];
       agentFilter := Some filter; sessionFilter := None |} in
  let sessions filter :=
    {| enabled := true; approvers := Some [ApproverStr "123"];
       agentFilter := None; sessionFilter := Some filter |} in
  handle {| enabled := false; approvers := Some [ApproverStr "123"];
            agentFilter := None; sessionFilter := None |}
         (Some "test-agent") telegram = Normal false
  /\ handle {| enabled := true; approvers := Some [];
               agentFilter := None; sessionFilter := None |}
            (Some "test-agent") telegram = Normal false
  /\ handle {| enabled := true; approvers := None;
               agentFilter := None; sessionFilter := None |}
            (Some "test-agent") telegram = Normal false
  /\ handle Example.oneApprover (Some "test-agent") telegram = Normal true
  /\ handle (agents ["allowed-agent"]) (Some "allowed-agent") telegram = Normal true
  /\ handle (agents ["allowed-agent"]) (Some "other-agent") telegram = Normal false
  /\ handle (agents ["allowed-agent"]) None telegram = Normal false
  /\ handle (sessions ["telegram"]) (Some "test-agent") (Some "agent:test:telegram:123")
     = Normal true
  /\ handle (sessions ["telegram"]) (Some "test-agent") (Some "agent:test:discord:123")
     = Normal false
  /\ handle (sessions ["telegram"]) (Some "test-agent") None = Normal false
  /\ handle Example.invalidFilterConfig (Some "test-agent") (Some "[invalid(regex")
     = Normal true
  /\ handle Example.invalidFilterConfig (Some "test-agent") (Some "something-else")
     = Normal false.
Proof. vm_compute. repeat split. Qed.

(** * Further properties of the code *)

(** ** Strings *)

Lemma append_String (a : ascii) (s t : string) : String a s +:+ t = String a (s +:+ t).
Proof. reflexivity. Qed.

Lemma append_empty_l (t : string) : "" +:+ t = t.
Proof. reflexivity. Qed.

Lemma append_empty_r (s : string) : s +:+ "" = s.
Proof. induction s as [|a s IH]; [reflexivity|]. by rewrite append_String, IH. Qed.

Lemma append_assoc (s t u : string) : (s +:+ t) +:+ u = s +:+ (t +:+ u).
Proof. induction s as [|a s IH]; [reflexivity|]. by rewrite !append_String, IH. Qed.

Lemma length_append (s t : string) :
  String.length (s +:+ t) = (String.length s + String.length t)%nat.
Proof.
  induction s as [|a s IH]; [reflexivity|].
  rewrite append_String. cbn [String.length]. by rewrite IH.
Qed.

Lemma lacks_append (c : ascii) (s t : string) :
  Js.lacks c (s +:+ t) = Js.lacks c s && Js.lacks c t.
Proof.
  induction s as [|a s IH]; [reflexivity|].
  rewrite append_String. cbn [Js.lacks]. by rewrite IH, andb_assoc.
Qed.

Lemma length_slice0 (n : nat) (s : string) :
  String.length (Js.slice0 n s) = Nat.min n (String.length s).
Proof.
  revert s. induction n as [|n IH]; intros [|a s]; try reflexivity.
  change (Js.slice0 (S n) (String a s)) with (String a (Js.slice0 n s)).
  cbn [String.length]. by rewrite IH.
Qed.

Lemma slice0_short (n : nat) (s : string) :
  (String.length s <= n)%nat -> Js.slice0 n s = s.
Proof.
  revert s. induction n as [|n IH]; intros [|a s] H; try reflexivity.
  - cbn in H. lia.
  - change (Js.slice0 (S n) (String a s)) with (String a (Js.slice0 n s)).
    rewrite IH; [reflexivity|]. cbn in H. lia.
Qed.

(** ** Codec: tokens *)

(** X1: a token has at most 13 characters, whatever the identifier: the
    prefix, two colons, at most eight characters of the identifier and
    one tag. *)
Theorem token_length_bound (approvalId : string) (action : ExecApprovalDecision) :
  (String.length (buildExecApprovalCallbackData approvalId action) <= 13)%nat.
Proof.
  unfold buildExecApprovalCallbackData, EXEC_APPROVAL_PREFIX.
  rewrite !length_append, length_slice0.
  assert (String.length (actionChar action) = 1%nat) as -> by (by destruct action).
  cbn [String.length]. lia.
Qed.

Lemma startsWith_append (p s : string) :
  Js.startsWith p s = true -> exists r, s = p +:+ r.
Proof.
  revert s. induction p as [|a p IH]; intros s H; [by exists s|].
  destruct s as [|b s]; [discriminate|]. cbn [Js.startsWith] in H.
  destruct (Ascii.eqb_spec a b) as [->|]; [|discriminate].
  destruct (IH s H) as [r ->]. by exists r.
Qed.

Lemma split_fields_lack_sep (c : ascii) (s : string) :
  Forall (fun f => Js.lacks c f = true) (Js.split c s).
Proof.
  induction s as [|a s IH]; cbn [Js.split]; [by repeat constructor|].
  destruct (Ascii.eqb a c) eqn:E; [by constructor|].
  destruct (Js.split c s) as [|f fs].
  { constructor; [cbn [Js.lacks]; by rewrite E | constructor]. }
  inversion IH as [|? ? Hf Hfs]; subst. constructor; [|exact Hfs].
  cbn [Js.lacks]. by rewrite E, Hf.
Qed.

Lemma join_cons (sep p q : string) (qs : list string) :
  join sep (p :: q :: qs) = p +:+ sep +:+ join sep (q :: qs).
Proof. reflexivity. Qed.

(** Joining the fields of a split with the separator gives the string
    back. *)
Lemma join_split (c : ascii) (s : string) :
  join (String c "") (Js.split c s) = s.
Proof.
  induction s as [|a s IH]; [reflexivity|]. cbn [Js.split].
  destruct (split_cons c s) as [f [fs E]]. rewrite E in IH |- *.
  destruct (Ascii.eqb_spec a c) as [->|_].
  - by rewrite join_cons, IH.
  - destruct fs as [|g gs].
    + cbn [join] in IH |- *. by rewrite IH.
    + rewrite join_cons in IH |- *. by rewrite append_String, IH.
Qed.

(** X2: what the decoder accepts, the encoder produces.  A decoded short
    id is not empty and holds no colon, and when it has at most eight
    characters, encoding the decoded pair gives the token back. *)
Theorem decoded_token_reencodes (token shortId : string) (action : ExecApprovalDecision) :
  parseExecApprovalCallbackData (JsStr token) = Some (shortId, action) ->
  shortId <> ""
  /\ Js.lacks colon shortId = true
  /\ ((String.length shortId <= 8)%nat ->
      buildExecApprovalCallbackData shortId action = token).
Proof.
  unfold parseExecApprovalCallbackData.
  destruct (Js.truthy token); cbn [negb orb]; [|discriminate].
  destruct (Js.startsWith _ token) eqn:Hp; cbn [negb]; [|discriminate].
  destruct (startsWith_append _ _ Hp) as [rest ->].
  change (Js.split colon ((EXEC_APPROVAL_PREFIX +:+ ":") +:+ rest))
    with ("ea" :: Js.split colon rest).
  pose proof (join_split colon rest) as Hjoin.
  pose proof (split_fields_lack_sep colon rest) as Hlack.
  destruct (Js.split colon rest) as [|f1 [|f2 [|f3 fs]]]; try discriminate.
  cbn [length Nat.eqb negb nth].
  destruct (actionOfChar f2) as [a|] eqn:Ha; [|discriminate].
  destruct (Js.truthy f1) eqn:Ht; cbn [negb]; [|discriminate].
  intros [= <- <-]. apply actionOfChar_Some in Ha. subst f2.
  inversion Hlack as [|? ? Hf1 _]; subst.
  split; [by apply truthy_true|]. split; [exact Hf1|].
  intros Hlen. unfold buildExecApprovalCallbackData.
  by rewrite (slice0_short 8 f1 Hlen).
Qed.

Lemma decoded_token_reencodes_witness :
  buildExecApprovalCallbackData "abc12345" AllowOnce = "ea:abc12345:o".
Proof.
  refine (proj2 (proj2 (decoded_token_reencodes "ea:abc12345:o" "abc12345" AllowOnce
                          eq_refl)) _).
  simpl. lia.
Defined.

(** X3: every token that decodes is one that [isExecApprovalCallbackData]
    routes to the handler. *)
Theorem decoded_token_is_recognized (data : JsData)
    (r : string * ExecApprovalDecision) :
  parseExecApprovalCallbackData data = Some r ->
  isExecApprovalCallbackData data = true.
Proof.
  destruct data as [| |s]; try discriminate.
  unfold parseExecApprovalCallbackData, isExecApprovalCallbackData.
  destruct (Js.truthy s); cbn [negb orb]; [|discriminate].
  by destruct (Js.startsWith _ s).
Qed.

Lemma decoded_token_is_recognized_witness :
  isExecApprovalCallbackData (JsStr "ea:test1234:d") = true.
Proof.
  exact (decoded_token_is_recognized (JsStr "ea:test1234:d") ("test1234", Deny) eq_refl).
Defined.

(** ** Message escaping *)

Lemma replaceAll_append (c : ascii) (by_ s t : string) :
  replaceAll c by_ (s +:+ t) = replaceAll c by_ s +:+ replaceAll c by_ t.
Proof.
  induction s as [|a s IH]; [reflexivity|].
  rewrite append_String. cbn [replaceAll].
  destruct (Ascii.eqb a c); by rewrite IH, ?append_assoc, ?append_String.
Qed.

(** The three passes amount to one pass that escapes each character on
    its own: the ampersands that the first pass writes are not escaped
    again, as the later passes look for other characters. *)
Lemma escapeHtml_String (a : ascii) (s : string) :
  escapeHtml (String a s) = escapeChar a +:+ escapeHtml s.
Proof.
  unfold escapeHtml, escapeChar. cbn [replaceAll].
  destruct (Ascii.eqb_spec a "&"%char) as [->|Hamp].
  { by rewrite !replaceAll_append. }
  cbn [replaceAll].
  destruct (Ascii.eqb_spec a "<"%char) as [->|Hlt].
  { by rewrite !replaceAll_append. }
  cbn [replaceAll].
  destruct (Ascii.eqb_spec a ">"%char) as [->|Hgt]; reflexivity.
Qed.

Lemma escapeHtml_append (s t : string) :
  escapeHtml (s +:+ t) = escapeHtml s +:+ escapeHtml t.
Proof. unfold escapeHtml. by rewrite !replaceAll_append. Qed.

Lemma escapeChar_lacks (a c : ascii) :
  c = "<"%char \/ c = ">"%char -> Js.lacks c (escapeChar a) = true.
Proof.
  intros Hc. unfold escapeChar.
  destruct (Ascii.eqb_spec a "&"%char) as [->|Hamp]; [by destruct Hc as [->| ->]|].
  destruct (Ascii.eqb_spec a "<"%char) as [->|Hlt]; [by destruct Hc as [->| ->]|].
  destruct (Ascii.eqb_spec a ">"%char) as [->|Hgt]; [by destruct Hc as [->| ->]|].
  cbn [Js.lacks]. rewrite andb_true_r. apply negb_true_iff.
  destruct Hc as [->| ->]; by apply Ascii.eqb_neq.
Qed.

Lemma escapeHtml_lacks_brackets (text : string) :
  Js.lacks "<"%char (escapeHtml text) = true
  /\ Js.lacks ">"%char (escapeHtml text) = true.
Proof.
  induction text as [|a s [IH1 IH2]]; [by split|].
  rewrite escapeHtml_String, !lacks_append, IH1, IH2.
  rewrite !escapeChar_lacks by auto. by split.
Qed.

(** X4: an escaped text holds no angle bracket, whatever the text: text
    put into a message cannot open or close a tag. *)
Theorem escapeHtml_no_angle_brackets (text : string) :
  Js.lacks "<"%char (escapeHtml text) = true
  /\ Js.lacks ">"%char (escapeHtml text) = true.
Proof. exact (escapeHtml_lacks_brackets text). Qed.

(** X5: a text without ampersand and angle brackets is left as it is,
    and only such a text is. *)
Theorem escapeHtml_fixes_plain_text (text : string) :
  escapeHtml text = text <->
  Js.lacks "&"%char text && Js.lacks "<"%char text && Js.lacks ">"%char text = true.
Proof.
  split.
  - intros H. destruct (escapeHtml_lacks_brackets text) as [Hlt Hgt].
    rewrite H in Hlt, Hgt. rewrite Hlt, Hgt, !andb_true_r.
    clear Hlt Hgt. revert H. induction text as [|a s IH]; [reflexivity|].
    rewrite escapeHtml_String. unfold escapeChar. cbn [Js.lacks].
    destruct (Ascii.eqb_spec a "&"%char) as [->|Hamp].
    + intros H. exfalso. injection H as H.
      (* the tail of the escaped text repeats the text one step later *)
      assert (Hgrow : forall n (t : string),
                 String.length t = n -> "amp;" +:+ escapeHtml t <> t).
      { clear. intros n. induction n as [n IHn] using lt_wf_ind. intros t Hn Ht.
        destruct t as [|b t]; [discriminate|].
        rewrite escapeHtml_String in Ht. injection Ht as <- Ht.
        change (escapeChar "a"%char) with "a" in Ht.
        destruct t as [|b t]; [discriminate|].
        rewrite escapeHtml_String in Ht. injection Ht as <- Ht.
        change (escapeChar "m"%char) with "m" in Ht.
        destruct t as [|b t]; [discriminate|].
        rewrite escapeHtml_String in Ht. injection Ht as <- Ht.
        change (escapeChar "p"%char) with "p" in Ht.
        destruct t as [|b t]; [discriminate|].
        rewrite escapeHtml_String in Ht. injection Ht as <- Ht.
        change (escapeChar ";"%char) with ";" in Ht.
        apply (IHn (String.length t)) with (t := t); [cbn in Hn; lia | reflexivity | exact Ht]. }
      exact (Hgrow _ s eq_refl H).
    + cbn [negb andb]. destruct (Ascii.eqb a "<"%char), (Ascii.eqb a ">"%char);
        intros H; injection H as H; by apply IH.
  - intros H. apply andb_true_iff in H as [H Hgt]. apply andb_true_iff in H as [Hamp Hlt].
    induction text as [|a s IH]; [reflexivity|].
    cbn [Js.lacks] in Hamp, Hlt, Hgt.
    apply andb_true_iff in Hamp as [Ha1 Hamp], Hlt as [Ha2 Hlt], Hgt as [Ha3 Hgt].
    rewrite escapeHtml_String, IH by assumption. unfold escapeChar.
    apply negb_true_iff in Ha1, Ha2, Ha3. by rewrite Ha1, Ha2, Ha3.
Qed.

Lemma escapeChar_cases (a : ascii) :
  (a = "&"%char /\ escapeChar a = "&amp;")
  \/ (a = "<"%char /\ escapeChar a = "&lt;")
  \/ (a = ">"%char /\ escapeChar a = "&gt;")
  \/ (a <> "&"%char /\ escapeChar a = String a "").
Proof.
  unfold escapeChar.
  destruct (Ascii.eqb_spec a "&"%char) as [->|Hamp]; [by left|].
  destruct (Ascii.eqb_spec a "<"%char) as [->|Hlt]; [by right; left|].
  destruct (Ascii.eqb_spec a ">"%char) as [->|Hgt]; [by right; right; left|].
  by right; right; right.
Qed.

(** X6: escaping loses nothing: two texts with the same escaped form are
    the same text. *)
Theorem escapeHtml_injective (s t : string) :
  escapeHtml s = escapeHtml t -> s = t.
Proof.
  revert t. induction s as [|a s IH]; intros [|b t].
  - reflexivity.
  - rewrite escapeHtml_String.
    destruct (escapeChar_cases b) as [[_ ->]|[[_ ->]|[[_ ->]|[_ ->]]]]; discriminate.
  - rewrite escapeHtml_String.
    destruct (escapeChar_cases a) as [[_ ->]|[[_ ->]|[[_ ->]|[_ ->]]]]; discriminate.
  - rewrite !escapeHtml_String.
    destruct (escapeChar_cases a) as [[-> ->]|[[-> ->]|[[-> ->]|[Ha ->]]]];
      destruct (escapeChar_cases b) as [[-> ->]|[[-> ->]|[[-> ->]|[Hb ->]]]];
      intros H; try discriminate H;
      try (injection H as H; f_equal; by apply IH);
      try (injection H as E H; congruence).
    injection H as -> H. f_equal. by apply IH.
Qed.

Lemma escapeHtml_injective_witness :
  "a<b" = "a<b".
Proof. exact (escapeHtml_injective "a<b" "a<b" eq_refl). Defined.

(** ** Filter: the decision as a formula *)

Section FilterFormulaFacts.

Variable RegExp : Type.
Variable RegExp_new : string -> option RegExp.
Variable RegExp_test : RegExp -> string -> bool.

Lemma sessionPatternMatches_value (session p : string) :
  sessionPatternMatches RegExp RegExp_new RegExp_test session p
  = Normal (patternAccepts RegExp RegExp_new RegExp_test session p).
Proof.
  unfold sessionPatternMatches, patternAccepts.
  destruct (Js.includes session p); [reflexivity|].
  by destruct (RegExp_new p).
Qed.

Lemma some_existsb {A} (cb : A -> Completion bool) (f : A -> bool) (l : list A) :
  (forall x, cb x = Normal (f x)) -> some cb l = Normal (existsb f l).
Proof.
  intros H. induction l as [|x l IH]; [reflexivity|].
  cbn [some existsb]. rewrite H. by destruct (f x).
Qed.

Lemma shouldHandle_formula (config : TelegramExecApprovalConfig)
    (req : ExecApprovalRequest) :
  shouldHandle RegExp RegExp_new RegExp_test config req
  = Normal (enabled config
            && has_length (approvers config)
            && negb (agentFilterRejects config req)
            && sessionFilterAccepts RegExp RegExp_new RegExp_test config req).
Proof.
  unfold shouldHandle, agentFilterRejects, sessionFilterAccepts.
  destruct (enabled config); cbn [negb andb]; [|reflexivity].
  destruct (has_length (approvers config)); cbn [negb andb]; [|reflexivity].
  destruct (has_length (agentFilter config) && _); cbn [negb andb]; [reflexivity|].
  destruct (has_length (sessionFilter config)); cbn [negb orb]; [|reflexivity].
  destruct (truthy_opt (sessionKey (request req))); cbn [negb andb]; [|reflexivity].
  rewrite (some_existsb _ _ _ (sessionPatternMatches_value _)).
  by destruct (existsb _ _).
Qed.

(** X7: [shouldHandle] never throws, and its answer is the conjunction
    of its four checks: the handler is enabled, it has approvers, the
    agent filter does not reject the request, and the session filter is
    absent or one of its patterns accepts the session key. *)
Theorem shouldHandle_is_conjunction (config : TelegramExecApprovalConfig)
    (req : ExecApprovalRequest) :
  shouldHandle RegExp RegExp_new RegExp_test config req
  = Normal (enabled config
            && has_length (approvers config)
            && negb (agentFilterRejects config req)
            && sessionFilterAccepts RegExp RegExp_new RegExp_test config req).
Proof. exact (shouldHandle_formula config req). Qed.

Lemma includes_empty (s : string) : Js.includes s "" = true.
Proof. by destruct s. Qed.

(** X8: an empty pattern in the session filter accepts every session
    key: a request that passes the other checks and has a session key
    is handled, whatever the other patterns are. *)
Theorem empty_session_pattern_accepts_all (config : TelegramExecApprovalConfig)
    (req : ExecApprovalRequest) (patterns : list string) (session : string) :
  enabled config = true ->
  has_length (approvers config) = true ->
  agentFilterRejects config req = false ->
  sessionFilter config = Some patterns ->
  In "" patterns ->
  sessionKey (request req) = Some session ->
  Js.truthy session = true ->
  shouldHandle RegExp RegExp_new RegExp_test config req = Normal true.
Proof.
  intros Hen Happ Hagent Hfilter Hin Hkey Htruthy.
  rewrite shouldHandle_formula, Hen, Happ, Hagent. cbn [negb andb].
  unfold sessionFilterAccepts. rewrite Hfilter, Hkey.
  cbn [truthy_opt default from_option id]. rewrite Htruthy. cbn [andb].
  assert (existsb (patternAccepts RegExp RegExp_new RegExp_test session) patterns = true)
    as ->; [|by rewrite orb_true_r].
  apply existsb_exists. exists "". split; [exact Hin|].
  unfold patternAccepts. by rewrite includes_empty.
Qed.

End FilterFormulaFacts.

Lemma empty_session_pattern_witness :
  shouldHandle string Example.RegExp_new Example.RegExp_test
    {| enabled := true; approvers := Some [ApproverStr "123"]; agentFilter := None;
       sessionFilter := Some ["discord"; ""] |}
    (Example.requestOf "test-id" None (Some "agent:test:telegram:123"))
  = Normal true.
Proof.
  apply (empty_session_pattern_accepts_all string Example.RegExp_new Example.RegExp_test
           _ _ ["discord"; ""] "agent:test:telegram:123").
  - reflexivity.
  - reflexivity.
  - reflexivity.
  - reflexivity.
  - right. by left.
  - reflexivity.
  - reflexivity.
Defined.

(** ** Handler: start and stop *)

Section LifecycleFacts.

Variable RegExp : Type.
Variable RegExp_new : string -> option RegExp.
Variable RegExp_test : RegExp -> string -> bool.
Variable String_of_number : Z -> string.
Variable config : TelegramExecApprovalConfig.

Local Abbreviation step_ := (step RegExp RegExp_new RegExp_test String_of_number config).
Local Abbreviation reachable_ :=
  (reachable RegExp RegExp_new RegExp_test String_of_number config).
Local Abbreviation callbackQuery := (handleCallbackQuery String_of_number config).
Local Abbreviation String_ := (String_of String_of_number).


(** Clearing the timeouts of the pending entries arms nothing and leaves
    none of the recorded handles armed. *)
Lemma clear_recorded_timeouts (t : gmap nat (string * Z))
    (ps : gmap string PendingApproval) :
  let t' := map_fold (fun _ p t' => delete (timeoutId p) t') t ps in
  (forall h x, t' !! h = Some x -> t !! h = Some x)
  /\ (forall approvalId e, ps !! approvalId = Some e -> t' !! timeoutId e = None).
Proof.
  cbv zeta.
  apply (map_fold_weak_ind
    (fun (r : gmap nat (string * Z)) (m : gmap string PendingApproval) =>
       (forall h x, r !! h = Some x -> t !! h = Some x)
       /\ (forall approvalId e, m !! approvalId = Some e -> r !! timeoutId e = None))).
  - split; [auto|]. intros approvalId e H. by rewrite lookup_empty in H.
  - intros i p m r Hi [IH1 IH2]. cbv beta. split.
    + intros h x H. apply IH1.
      destruct (decide (timeoutId p = h)) as [E|Hne];
        [subst h; by rewrite lookup_delete_eq in H | by rewrite lookup_delete_ne in H].
    + intros approvalId e H.
      destruct (decide (timeoutId p = timeoutId e)) as [E|Hne];
        [rewrite E; apply lookup_delete_eq|].
      rewrite lookup_delete_ne by exact Hne.
      destruct (decide (i = approvalId)) as [->|Hne'].
      * rewrite lookup_insert_eq in H. congruence.
      * rewrite lookup_insert_ne in H by exact Hne'. by apply (IH2 approvalId).
Qed.

(** Stopping a handler that is not started does nothing. *)
Lemma stop_not_started (s : State) : started s = false -> stop s = ran tt s [].
Proof. intros Hs. run_handler. by rewrite Hs. Qed.

(** X10: stopping a started handler empties the three maps, drops the
    gateway client, clears the timeout recorded in every pending entry
    and arms none. *)
Theorem stop_clears_the_registry (s : State) :
  started s = true ->
  pending (after (stop s)) = ∅
  /\ requestCache (after (stop s)) = ∅
  /\ shortIdMap (after (stop s)) = ∅
  /\ gatewayClient (after (stop s)) = false
  /\ started (after (stop s)) = false
  /\ (forall approvalId e, pending s !! approvalId = Some e ->
        timers (after (stop s)) !! timeoutId e = None)
  /\ (forall h x, timers (after (stop s)) !! h = Some x -> timers s !! h = Some x).
Proof.
  intros Hs. run_handler. rewrite Hs. cbn.
  destruct (clear_recorded_timeouts (timers s) (pending s)) as [H1 H2].
  destruct (gatewayClient s); cbn; repeat split; assumption.
Qed.

End LifecycleFacts.

Lemma stop_clears_the_registry_witness :
  let s := after (Example.runWith Example.twoApprovers Example.notifiedBoth) in
  pending (after (stop s)) = ∅
  /\ timers (after (stop s)) !! 1%nat = None.
Proof.
  intros s.
  destruct (stop_clears_the_registry s eq_refl) as [Hp [_ [_ [_ [_ [Ht _]]]]]].
  split; [exact Hp|].
  exact (Ht "abc12345-6789-def0"
           {| telegramMessageId := 12; telegramChatId := "456"; timeoutId := 1 |} eq_refl).
Defined.

(** ** Handler: every step is a transition *)

Section TransitionFacts.

Variable RegExp : Type.
Variable RegExp_new : string -> option RegExp.
Variable RegExp_test : RegExp -> string -> bool.
Variable String_of_number : Z -> string.
Variable config : TelegramExecApprovalConfig.

Local Abbreviation step_ := (step RegExp RegExp_new RegExp_test String_of_number config).
Local Abbreviation reachable_ :=
  (reachable RegExp RegExp_new RegExp_test String_of_number config).
Local Abbreviation transition_ :=
  (transition RegExp RegExp_new RegExp_test String_of_number config).
Local Abbreviation callbackQuery := (handleCallbackQuery String_of_number config).
Local Abbreviation String_ := (String_of String_of_number).
Local Abbreviation chats := (approverChats String_of_number config).

Lemma step_transition (i : Input) (s : State) :
  transition_ s (nonLog (emitted (step_ i s))) (after (step_ i s)).
Proof.
  destruct i as [| |evt now edit|k r now|h edit|shortId action userId gw].
  - run_handler. destruct (started s) eqn:Hs; cbn; [constructor|].
    destruct (enabled config) eqn:He; cbn;
      [|apply transition_start_inert; auto].
    destruct (has_length (approvers config)) eqn:Ha; cbn;
      [by apply transition_start | apply transition_start_inert; auto].
  - run_handler. destruct (started s) eqn:Hs; cbn; [|constructor].
    pose proof (transition_stop RegExp RegExp_new RegExp_test String_of_number config s Hs)
      as T.
    destruct (gatewayClient s); exact T.
  - run_handler. destruct (gatewayClient s) eqn:Hc; cbn; [|constructor].
    destruct evt as [req|resolved|name]; run_handler; [| |constructor].
    + destruct (shouldHandle RegExp RegExp_new RegExp_test config req) as [[|]|] eqn:Hsh;
        cbn; try constructor.
      pose proof (shouldHandle_approvers RegExp RegExp_new RegExp_test config req Hsh) as Ha.
      destruct (approvers_or_empty config) as [|a rest] eqn:Hl.
      { unfold approvers_or_empty in Hl.
        destruct (approvers config) as [[|]|]; discriminate. }
      cbn. by apply (transition_accept RegExp RegExp_new RegExp_test String_of_number
                       config s req now a rest).
    + destruct (pending s !! res_id resolved) as [entry|] eqn:Hp; cbn; [|constructor].
      pose proof (transition_resolve RegExp RegExp_new RegExp_test String_of_number config
                    s resolved entry Hc Hp) as T.
      unfold finalEdit in T.
      destruct (requestCache s !! res_id resolved); [destruct edit|]; exact T.
  - run_handler. destruct (suspended s !! k) as [task|] eqn:Hk; cbn; [|constructor].
    destruct r as [[mid|]|err]; cbn.
    + destruct (Z.eqb_spec mid 0) as [->|Hmid]; cbn.
      * pose proof (transition_not_notified RegExp RegExp_new RegExp_test String_of_number
                      config s k task Hk) as T.
        unfold nextSend, nextSuspended in T. destruct (sus_rest task); exact T.
      * pose proof (transition_notified RegExp RegExp_new RegExp_test String_of_number
                      config s k task mid now Hk Hmid) as T.
        unfold nextSend, nextSuspended in T. destruct (sus_rest task); exact T.
    + pose proof (transition_not_notified RegExp RegExp_new RegExp_test String_of_number
                    config s k task Hk) as T.
      unfold nextSend, nextSuspended in T. destruct (sus_rest task); exact T.
    + pose proof (transition_not_notified RegExp RegExp_new RegExp_test String_of_number
                    config s k task Hk) as T.
      unfold nextSend, nextSuspended in T. destruct (sus_rest task); exact T.
  - run_handler. destruct (timers s !! h) as [[approvalId ms]|] eqn:Hh; cbn; [|constructor].
    destruct (pending s !! approvalId) as [entry|] eqn:Hp; cbn.
    + pose proof (transition_expire RegExp RegExp_new RegExp_test String_of_number config
                    s h approvalId ms entry Hh Hp) as T.
      unfold finalEdit in T. cbn in T.
      destruct (requestCache s !! approvalId); [destruct edit|]; exact T.
    + exact (transition_fire_late RegExp RegExp_new RegExp_test String_of_number config
               s h approvalId ms Hh Hp).
  - run_handler. destruct (shortIdMap s !! shortId) as [fullId|] eqn:Hm; cbn; [|constructor].
    destruct (Js.truthy fullId) eqn:Hf; cbn; [|constructor].
    destruct (truthy_opt userId && _); cbn; [constructor|].
    destruct (gatewayClient s) eqn:Hc; cbn; [|constructor].
    pose proof (transition_callback RegExp RegExp_new RegExp_test String_of_number config
                  s shortId fullId action Hm Hf Hc) as T.
    destruct gw; exact T.
Qed.

(** A property of the initial state that every transition keeps holds
    in every reachable state. *)
Lemma reachable_invariant (P : State -> Prop) :
  P initial ->
  (forall s effects s', P s -> transition_ s effects s' -> P s') ->
  forall s, reachable_ s -> P s.
Proof.
  intros Hinit Hstep s Hs. induction Hs as [|s i _ IH]; [exact Hinit|].
  exact (Hstep s _ _ IH (step_transition i s)).
Qed.

Lemma transition_shortIdsCached (s : State) (effects : list Effect) (s' : State) :
  shortIdsCached s -> transition_ s effects s' -> shortIdsCached s'.
Proof.
  intros [Hshort Hcache] T.
  assert (Hforget : forall approvalId s0,
            shortIdMap s0 = shortIdMap s -> requestCache s0 = requestCache s ->
            shortIdsCached (forget approvalId s0)).
  { intros approvalId s0 E1 E2. unfold forget, shortIdsCached. cbn. rewrite E1, E2. split.
    - intros shortId fullId H.
      destruct (decide (Js.slice0 8 approvalId = shortId)) as [<-|Hne];
        [by rewrite lookup_delete_eq in H|].
      rewrite lookup_delete_ne in H by exact Hne.
      destruct (Hshort _ _ H) as [-> [req Hreq]]. split; [reflexivity|].
      exists req. rewrite lookup_delete_ne; [exact Hreq | congruence].
    - intros k req H.
      destruct (decide (approvalId = k)) as [<-|Hne];
        [by rewrite lookup_delete_eq in H|].
      rewrite lookup_delete_ne in H by exact Hne. by apply Hcache. }
  destruct T; try (split; assumption); try (by apply Hforget).
  - split; cbn; intros ? ? Hlk; by rewrite lookup_empty in Hlk.
  - split; cbn.
    + intros shortId fullId Hlk.
      destruct (decide (Js.slice0 8 (req_id req) = shortId)) as [<-|Hne].
      * rewrite lookup_insert_eq in Hlk. injection Hlk as <-. split; [reflexivity|].
        exists req. apply lookup_insert_eq.
      * rewrite lookup_insert_ne in Hlk by exact Hne.
        destruct (Hshort _ _ Hlk) as [-> [r Hr]]. split; [reflexivity|].
        destruct (decide (req_id req = fullId)) as [<-|Hne'];
          [exists req; apply lookup_insert_eq|].
        exists r. by rewrite lookup_insert_ne.
    + intros k r Hlk.
      destruct (decide (req_id req = k)) as [<-|Hne].
      * rewrite lookup_insert_eq in Hlk. by injection Hlk as <-.
      * rewrite lookup_insert_ne in Hlk by exact Hne. by apply Hcache.
Qed.

(** X11: in every state the handler can reach, the full id that
    [getFullApprovalId] gives for a short id has that short id as its
    first eight characters, and the request of that id is cached under
    that id. *)
Theorem short_ids_map_to_cached_requests (s : State) (shortId fullId : string) :
  reachable_ s ->
  getFullApprovalId shortId s = Some fullId ->
  shortId = Js.slice0 8 fullId
  /\ exists req, requestCache s !! fullId = Some req /\ req_id req = fullId.
Proof.
  unfold getFullApprovalId. intros Hs Hm.
  assert (Inv : shortIdsCached s).
  { apply reachable_invariant; [|exact transition_shortIdsCached|exact Hs].
    split; cbn; intros ? ? H; by rewrite lookup_empty in H. }
  destruct Inv as [Hshort Hcache]. destruct (Hshort _ _ Hm) as [-> [req Hreq]].
  split; [reflexivity|]. exists req. split; [exact Hreq | by apply Hcache].
Qed.

Lemma transition_clientHeld (s : State) (effects : list Effect) (s' : State) :
  clientHeld s -> transition_ s effects s' -> clientHeld s'.
Proof.
  intros [Hstarted Hempty] T.
  destruct T; unfold clientHeld, forget; cbn; split;
    try assumption; try discriminate; try congruence; try (intros _; reflexivity).
  - by split.
  - intros Hc. destruct (Hempty Hc) as [-> ->]. by rewrite !delete_empty.
Qed.

Lemma reachable_clientHeld (s : State) : reachable_ s -> clientHeld s.
Proof.
  apply reachable_invariant; [|exact transition_clientHeld].
  split; cbn; [discriminate | auto].
Qed.

(** X12: a handler that is not started answers no callback: whatever the
    short id, the action and the user, [handleCallbackQuery] returns
    [false] and asks nothing of the gateway. *)
Theorem stopped_handler_ignores_callbacks (s : State) (shortId : string)
    (action : ExecApprovalDecision) (userId : option string) (gw : Outcome) :
  reachable_ s ->
  started s = false ->
  value (callbackQuery shortId action userId gw s) = false
  /\ gatewayRequests (emitted (callbackQuery shortId action userId gw s)) = [].
Proof.
  intros Hs Hstopped. destruct (reachable_clientHeld s Hs) as [Hstarted Hempty].
  apply callback_unmapped.
  destruct (gatewayClient s) eqn:Hc; [specialize (Hstarted eq_refl); congruence|].
  destruct (Hempty eq_refl) as [-> _]. apply lookup_empty.
Qed.

Lemma transition_chatsConfigured (s : State) (effects : list Effect) (s' : State) :
  chatsConfigured String_of_number config s ->
  transition_ s effects s' ->
  Forall (addressedToApprover String_of_number config) effects
  /\ chatsConfigured String_of_number config s'.
Proof.
  intros [Hp Hsus] T.
  assert (Hnext : forall k task,
            suspended s !! k = Some task ->
            Forall (addressedToApprover String_of_number config)
              (nextSend String_of_number task)
            /\ Forall (fun task =>
                         In (sus_chatId task) chats
                         /\ forall a, In a (sus_rest task) -> In a (approvers_or_empty config))
                 (nextSuspended String_of_number k task (suspended s))).
  { intros k task Hk. destruct (Forall_lookup_1 _ _ _ _ Hsus Hk) as [Hchat Hrest].
    unfold nextSend, nextSuspended. destruct (sus_rest task) as [|a rest].
    - split; [constructor | by apply Forall_delete].
    - assert (Ha : In (String_ a) chats) by (apply in_map, Hrest; by left).
      split; [by repeat constructor|].
      apply Forall_insert; [exact Hsus|]. split; [exact Ha|].
      intros b Hb. apply Hrest. by right. }
  assert (Hedit : forall approvalId entry text,
            pending s !! approvalId = Some entry ->
            Forall (addressedToApprover String_of_number config)
              (finalEdit s approvalId entry text)).
  { intros approvalId entry text He. unfold finalEdit.
    destruct (requestCache s !! approvalId); repeat constructor. by apply (Hp approvalId). }
  assert (Hdel : forall approvalId approvalId' entry,
            delete approvalId (pending s) !! approvalId' = Some entry ->
            In (telegramChatId entry) chats).
  { intros approvalId approvalId' entry Hlk. apply (Hp approvalId').
    destruct (decide (approvalId = approvalId')) as [<-|Hne];
      [by rewrite lookup_delete_eq in Hlk | by rewrite lookup_delete_ne in Hlk]. }
  destruct T; unfold chatsConfigured, forget; cbn;
    try (split; [by repeat constructor | split; assumption]).
  - split; [destruct (gatewayClient s); by repeat constructor|].
    split; [|exact Hsus]. intros ? ? Hlk. by rewrite lookup_empty in Hlk.
  - assert (Ha : In (String_ a) chats).
    { unfold approverChats. rewrite H1. by left. }
    split; [by repeat constructor|]. split; [exact Hp|].
    apply Forall_app. split; [exact Hsus|]. repeat constructor; [exact Ha|].
    cbn. intros b Hb. rewrite H1. by right.
  - split; [by apply Hedit|]. split; [apply Hdel | exact Hsus].
  - split; [by apply Hedit|]. split; [apply Hdel | exact Hsus].
  - destruct (Hnext k task H) as [Hsend Hsus']. split; [exact Hsend|].
    split; [|exact Hsus']. intros approvalId entry Hlk.
    destruct (decide (req_id (sus_request task) = approvalId)) as [<-|Hne].
    + rewrite lookup_insert_eq in Hlk. injection Hlk as <-. cbn.
      by destruct (Forall_lookup_1 _ _ _ _ Hsus H).
    + rewrite lookup_insert_ne in Hlk by exact Hne. by apply (Hp approvalId).
  - destruct (Hnext k task H) as [Hsend Hsus']. split; [exact Hsend|].
    split; [exact Hp | exact Hsus'].
Qed.

Lemma reachable_chatsConfigured (s : State) :
  reachable_ s -> chatsConfigured String_of_number config s.
Proof.
  apply reachable_invariant.
  - split; cbn; [|constructor]. intros ? ? Hlk. by rewrite lookup_empty in Hlk.
  - intros s0 effects s' Inv T. by destruct (transition_chatsConfigured s0 effects s' Inv T).
Qed.

Lemma addressedToApprover_log (e : Effect) :
  isLog e = true -> addressedToApprover String_of_number config e.
Proof. by destruct e. Qed.

(** X13: whatever happens, the handler sends messages to the chats of
    configured approvers only, edits messages in such chats only, and
    every edit removes the buttons. *)
Theorem messages_go_to_approvers (s : State) (i : Input) (e : Effect) :
  reachable_ s ->
  In e (emitted (step_ i s)) ->
  addressedToApprover String_of_number config e.
Proof.
  intros Hs He.
  destruct (isLog e) eqn:Hlog; [by apply addressedToApprover_log|].
  destruct (transition_chatsConfigured s _ _ (reachable_chatsConfigured s Hs)
              (step_transition i s)) as [Hall _].
  rewrite Forall_forall in Hall. apply Hall.
  apply list_elem_of_In. unfold nonLog. apply filter_In. by rewrite Hlog.
Qed.

Lemma transition_freshHandles (s : State) (effects : list Effect) (s' : State) :
  freshHandles s -> transition_ s effects s' -> freshHandles s'.
Proof.
  intros Hfresh T.
  destruct T; unfold freshHandles, forget; cbn; try assumption;
    try (intros h0 Hh; rewrite lookup_delete_None; right; by apply Hfresh).
  - intros h Hh.
    destruct (clear_recorded_timeouts (timers s) (pending s)) as [Hsub _].
    destruct (map_fold _ _ _ !! h) as [x|] eqn:E; [|reflexivity].
    specialize (Hsub h x E). by rewrite (Hfresh h Hh) in Hsub.
  - intros h Hh. rewrite lookup_insert_ne by lia. apply Hfresh. lia.
Qed.

Lemma reachable_freshHandles (s : State) : reachable_ s -> freshHandles s.
Proof.
  apply reachable_invariant; [|exact transition_freshHandles].
  intros h _. apply lookup_empty.
Qed.

(** X14: a handler whose configuration is disabled or names no approver
    never holds a gateway client, a pending entry or a timeout, and
    nothing it does is more than a log line. *)
Theorem disabled_handler_is_inert (s : State) (i : Input) :
  enabled config = false \/ has_length (approvers config) = false ->
  reachable_ s ->
  (gatewayClient s = false /\ pending s = ∅ /\ timers s = ∅ /\ suspended s = [])
  /\ nonLog (emitted (step_ i s)) = [].
Proof.
  intros Hoff Hs.
  assert (Hstep : forall s0 effects s',
            gatewayClient s0 = false /\ pending s0 = ∅ /\ timers s0 = ∅
            /\ suspended s0 = [] ->
            transition_ s0 effects s' ->
            effects = []
            /\ (gatewayClient s' = false /\ pending s' = ∅ /\ timers s' = ∅
                /\ suspended s' = [])).
  { intros s0 effects s' (Hc & Hp & Ht & Hsus) T.
    destruct T; cbn; try (by repeat split); try congruence.
    - destruct Hoff; congruence.
    - rewrite Hc, Hp, Ht, map_fold_empty. by repeat split.
    - by rewrite Ht, lookup_empty in H.
    - by rewrite Ht, lookup_empty in H.
    - by rewrite Hsus in H.
    - by rewrite Hsus in H. }
  assert (Inv : gatewayClient s = false /\ pending s = ∅ /\ timers s = ∅
                /\ suspended s = []).
  { revert s Hs. apply reachable_invariant; [by repeat split|].
    intros s0 effects s' Inv T. by destruct (Hstep s0 effects s' Inv T). }
  split; [exact Inv|].
  by destruct (Hstep s _ _ Inv (step_transition i s)).
Qed.

(** X15: a callback changes nothing in the handler; it sends the gateway
    at most one resolve request, for the id that the index gives for the
    short id and for the action of the callback; and it returns [true]
    only when it has sent that request and the gateway has fulfilled
    it. *)
Theorem callback_outcome (s : State) (shortId : string) (action : ExecApprovalDecision)
    (userId : option string) (gw : Outcome) :
  let r := callbackQuery shortId action userId gw s in
  after r = s
  /\ (gatewayRequests (emitted r) = []
      \/ exists fullId, shortIdMap s !! shortId = Some fullId
                        /\ gatewayRequests (emitted r) = [GatewayRequest fullId action])
  /\ (value r = true -> gw = Fulfilled /\ gatewayRequests (emitted r) <> []).
Proof.
  intros r. split; [apply callback_state|]. subst r. run_handler.
  destruct (shortIdMap s !! shortId) as [fullId|]; cbn; [|split; [by left | discriminate]].
  destruct (Js.truthy fullId); cbn; [|split; [by left | discriminate]].
  destruct (truthy_opt userId && _); cbn; [split; [by left | discriminate]|].
  destruct (gatewayClient s); cbn; [|split; [by left | discriminate]].
  destruct gw; cbn; (split; [right; by exists fullId | ]); [by split | discriminate].
Qed.

(** X16: once a resolution has removed an entry, the timeout recorded
    in that entry is cleared: if the runtime still tries to fire it,
    nothing happens. *)
Theorem recorded_timeout_is_silent_after_resolution (s : State)
    (resolved : ExecApprovalResolved) (edit edit' : Outcome) (entry : PendingApproval) :
  pending s !! res_id resolved = Some entry ->
  fireTimeout (timeoutId entry) edit' (after (handleApprovalResolved resolved edit s))
  = ran tt (after (handleApprovalResolved resolved edit s)) [].
Proof.
  intros Hp. pose proof (resolved_clears_recorded_timeout resolved edit s entry Hp) as Ht.
  unfold fireTimeout, bind, gets. cbn [value after emitted]. by rewrite Ht.
Qed.

(** The token of a button decodes to the short id of its request. *)
Lemma parse_built_token (approvalId : string) (action : ExecApprovalDecision) :
  Js.truthy approvalId = true ->
  Js.lacks colon (Js.slice0 8 approvalId) = true ->
  parseExecApprovalCallbackData (JsStr (buildExecApprovalCallbackData approvalId action))
  = Some (Js.slice0 8 approvalId, action).
Proof.
  intros Hid Hcolon. unfold parseExecApprovalCallbackData.
  change (Js.truthy (buildExecApprovalCallbackData approvalId action)) with true.
  change (Js.startsWith (EXEC_APPROVAL_PREFIX +:+ ":")
            (buildExecApprovalCallbackData approvalId action)) with true.
  cbn [negb orb].
  rewrite split_build, split_app_sep, (split_lacks _ _ (lacks_actionChar action))
    by exact Hcolon.
  cbn [length Nat.eqb negb nth].
  by rewrite actionOfChar_actionChar, slice0_truthy.
Qed.

Lemma keyboard_tokens (approvalId token : string) :
  In token (concat (buildInlineKeyboard approvalId)) ->
  exists action, token = buildExecApprovalCallbackData approvalId action.
Proof.
  intros [<-|[<-|[<-|[]]]]; eauto.
Qed.

(** X17: the buttons sent for an accepted request resolve that request.
    When the id is not empty and its first eight characters hold no
    colon, the token of each button decodes to a short id and an action
    with which a callback of a configured approver, right after the
    request was accepted, sends the gateway the resolve request for
    that id and that action. *)
Theorem button_resolves_its_request (s : State) (req : ExecApprovalRequest) (now : Z)
    (a : Approver) (token : string) (gw : Outcome) :
  gatewayClient s = true ->
  shouldHandle RegExp RegExp_new RegExp_test config req = Normal true ->
  Js.truthy (req_id req) = true ->
  Js.lacks colon (Js.slice0 8 (req_id req)) = true ->
  In a (approvers_or_empty config) ->
  In token (concat (buildInlineKeyboard (req_id req))) ->
  let s' := after (handleApprovalRequested RegExp RegExp_new RegExp_test
                     String_of_number config req now s) in
  exists shortId action,
    parseExecApprovalCallbackData (JsStr token) = Some (shortId, action)
    /\ gatewayRequests (emitted (callbackQuery shortId action (Some (String_ a)) gw s'))
       = [GatewayRequest (req_id req) action].
Proof.
  intros Hc Hsh Hid Hcolon Ha Htoken s'.
  destruct (keyboard_tokens _ _ Htoken) as [action ->].
  exists (Js.slice0 8 (req_id req)), action.
  split; [by apply parse_built_token|].
  destruct (approvers_or_empty config) as [|a0 rest] eqn:Hl; [destruct Ha|].
  assert (Hs' : s' = _) by exact (requested_accepted RegExp RegExp_new RegExp_test
                                   String_of_number config req now s a0 rest Hsh Hl).
  refine (proj2 (callback_proceeds String_of_number config s' _ (req_id req) action
                   (Some (String_ a)) gw _ Hid _) _).
  - rewrite Hs'. cbn. apply lookup_insert_eq.
  - cbn [default]. rewrite (member_existsb String_of_number (String_ a) _ a);
      [apply andb_false_r | by rewrite Hl | reflexivity].
  - by rewrite Hs'.
Qed.

(** X18: two accepted requests whose ids share their first eight
    characters share their buttons: after the second is accepted, a
    button of the first makes the handler send the resolve request for
    the second. *)
Theorem button_of_earlier_request_resolves_later (s : State)
    (reqA reqB : ExecApprovalRequest) (nowA nowB : Z)
    (a : Approver) (token : string) (gw : Outcome) :
  gatewayClient s = true ->
  shouldHandle RegExp RegExp_new RegExp_test config reqA = Normal true ->
  shouldHandle RegExp RegExp_new RegExp_test config reqB = Normal true ->
  Js.slice0 8 (req_id reqA) = Js.slice0 8 (req_id reqB) ->
  Js.truthy (req_id reqA) = true ->
  Js.truthy (req_id reqB) = true ->
  Js.lacks colon (Js.slice0 8 (req_id reqA)) = true ->
  In a (approvers_or_empty config) ->
  In token (concat (buildInlineKeyboard (req_id reqA))) ->
  let s' := after (handleApprovalRequested RegExp RegExp_new RegExp_test
                     String_of_number config reqB nowB
                     (after (handleApprovalRequested RegExp RegExp_new RegExp_test
                               String_of_number config reqA nowA s))) in
  exists shortId action,
    parseExecApprovalCallbackData (JsStr token) = Some (shortId, action)
    /\ gatewayRequests (emitted (callbackQuery shortId action (Some (String_ a)) gw s'))
       = [GatewayRequest (req_id reqB) action].
Proof.
  intros Hc HshA HshB Hprefix HidA HidB Hcolon Ha Htoken s'.
  destruct (keyboard_tokens _ _ Htoken) as [action ->].
  exists (Js.slice0 8 (req_id reqA)), action.
  split; [by apply parse_built_token|].
  destruct (approvers_or_empty config) as [|a0 rest] eqn:Hl; [destruct Ha|].
  pose proof (requested_accepted RegExp RegExp_new RegExp_test String_of_number config
                reqB nowB _ a0 rest HshB Hl : s' = _) as Hs'.
  rewrite (requested_accepted RegExp RegExp_new RegExp_test String_of_number config
             reqA nowA s a0 rest HshA Hl) in Hs'.
  refine (proj2 (callback_proceeds String_of_number config s' _ (req_id reqB) action
                   (Some (String_ a)) gw _ HidB _) _).
  - rewrite Hs', Hprefix. cbn. apply lookup_insert_eq.
  - cbn [default]. rewrite (member_existsb String_of_number (String_ a) _ a);
      [apply andb_false_r | by rewrite Hl | reflexivity].
  - by rewrite Hs'.
Qed.

(** X19: with one approver, a request that is accepted, notified and
    then resolved leaves nothing behind: the three maps have no entry
    for it, its timeout is cleared, no activation stays suspended; and
    one prompt was sent and that same message was edited once. *)
Theorem single_approver_round_trip (s : State) (req : ExecApprovalRequest)
    (resolved : ExecApprovalResolved) (a : Approver) (mid now nowSent nowResolved : Z)
    (edit0 edit : Outcome) :
  reachable_ s ->
  gatewayClient s = true ->
  shouldHandle RegExp RegExp_new RegExp_test config req = Normal true ->
  approvers_or_empty config = [a] ->
  mid <> 0%Z ->
  res_id resolved = req_id req ->
  let r := run RegExp RegExp_new RegExp_test String_of_number config
             [OnEvent (ExecApprovalRequestedEvent req) now edit0;
              SendSettled (length (suspended s)) (SendFulfilled (Some mid)) nowSent;
              OnEvent (ExecApprovalResolvedEvent resolved) nowResolved edit] s in
  pending (after r) = delete (req_id req) (pending s)
  /\ requestCache (after r) = delete (req_id req) (requestCache s)
  /\ shortIdMap (after r) = delete (Js.slice0 8 (req_id req)) (shortIdMap s)
  /\ timers (after r) = timers s
  /\ suspended (after r) = suspended s
  /\ nonLog (emitted r)
     = [SendMessage (String_ a) (ExecApprovalMessage req now)
          (buildInlineKeyboard (req_id req));
        EditMessageText (String_ a) mid
          (ResolvedMessage req (decision resolved) (resolvedBy resolved)) []].
Proof.
  intros Hs Hc Hsh Hl Hmid Hid r.
  pose proof (reachable_freshHandles s Hs (nextTimeout s) (le_n _)) as Hfresh.
  apply Z.eqb_neq in Hmid.
  subst r. cbn [run]. run_handler.
  rewrite Hc, Hsh. cbn. rewrite Hl. cbn.
  rewrite lookup_last_suspended. cbn. rewrite Hmid. cbn.
  rewrite Hc. cbn. rewrite Hid, lookup_insert_eq. cbn. rewrite lookup_insert_eq.
  destruct edit; cbn;
    rewrite !delete_insert_eq, delete_last_suspended, (delete_id _ _ Hfresh);
    by repeat split.
Qed.

Lemma transition_delaysNonNegative (s : State) (effects : list Effect) (s' : State) :
  delaysNonNegative s -> transition_ s effects s' -> delaysNonNegative s'.
Proof.
  intros Hd T.
  assert (Hdel : forall h0, delaysNonNegative (set_timers (delete h0) s)).
  { intros h0 h approvalId ms Hlk. cbn in Hlk. apply (Hd h approvalId).
    destruct (decide (h0 = h)) as [<-|Hne];
      [by rewrite lookup_delete_eq in Hlk | by rewrite lookup_delete_ne in Hlk]. }
  destruct T; unfold delaysNonNegative, forget; cbn; try assumption;
    try (apply Hdel).
  - intros h approvalId ms Hlk.
    destruct (clear_recorded_timeouts (timers s) (pending s)) as [Hsub _].
    exact (Hd h approvalId ms (Hsub h _ Hlk)).
  - intros h approvalId ms Hlk.
    destruct (decide (nextTimeout s = h)) as [<-|Hne].
    + rewrite lookup_insert_eq in Hlk. injection Hlk as <- <-. lia.
    + rewrite lookup_insert_ne in Hlk by exact Hne. by apply (Hd h approvalId).
Qed.

(** X20: whatever the expiry of a request and the clock, no timeout is
    ever armed with a negative delay. *)
Theorem armed_delays_are_not_negative (s : State) (h : nat) (approvalId : string)
    (ms : Z) :
  reachable_ s ->
  timers s !! h = Some (approvalId, ms) ->
  (0 <= ms)%Z.
Proof.
  intros Hs. revert h approvalId ms. change (delaysNonNegative s).
  revert s Hs. apply reachable_invariant; [|exact transition_delaysNonNegative].
  intros h approvalId ms Hlk. cbn in Hlk. by rewrite lookup_empty in Hlk.
Qed.

(** What a settled send leaves of an activation that is last among the
    suspended ones, and the message it sends next. *)
Lemma resume_last (pre : list Suspended) (task : Suspended) (r : SendOutcome)
    (now : Z) (s : State) :
  suspended s = pre ++ [task] ->
  nonLog (emitted (resumeApprovalRequested String_of_number (length pre) r now s))
  = nextSend String_of_number task
  /\ suspended (after (resumeApprovalRequested String_of_number (length pre) r now s))
     = match sus_rest task with
       | [] => pre
       | a :: rest =>
           pre ++ [{| sus_request := sus_request task;
                      sus_messageText := sus_messageText task;
                      sus_chatId := String_ a; sus_rest := rest |}]
       end
  /\ gatewayClient (after (resumeApprovalRequested String_of_number (length pre) r now s))
     = gatewayClient s.
Proof.
  intros Hsus. run_handler. rewrite Hsus, lookup_last_suspended. cbn.
  unfold nextSend.
  destruct r as [[mid|]|err]; cbn; [destruct (mid =? 0)%Z; cbn| |];
    destruct (sus_rest task) as [|a rest]; cbn;
    by rewrite Hsus, ?delete_last_suspended, ?insert_last_suspended.
Qed.

Lemma run_cons (i : Input) (inputs : list Input) (s : State) :
  emitted (run RegExp RegExp_new RegExp_test String_of_number config (i :: inputs) s)
  = emitted (step_ i s)
    ++ emitted (run RegExp RegExp_new RegExp_test String_of_number config inputs
                  (after (step_ i s)))
  /\ after (run RegExp RegExp_new RegExp_test String_of_number config (i :: inputs) s)
     = after (run RegExp RegExp_new RegExp_test String_of_number config inputs
                (after (step_ i s))).
Proof. by split. Qed.

Lemma run_sends_to_the_rest (pre : list Suspended) (settles : list (SendOutcome * Z)) :
  forall (task : Suspended) (s : State),
    suspended s = pre ++ [task] ->
    length settles = S (length (sus_rest task)) ->
    let r := run RegExp RegExp_new RegExp_test String_of_number config
               (map (fun x => SendSettled (length pre) (fst x) (snd x)) settles) s in
    nonLog (emitted r)
    = map (fun a => SendMessage (String_ a) (sus_messageText task)
                      (buildInlineKeyboard (req_id (sus_request task))))
        (sus_rest task)
    /\ suspended (after r) = pre.
Proof.
  induction settles as [|[r0 now] settles IH]; intros task s Hsus Hlen; [discriminate|].
  cbv zeta. cbn [map fst snd].
  destruct (run_cons (SendSettled (length pre) r0 now)
              (map (fun x => SendSettled (length pre) (fst x) (snd x)) settles) s)
    as [-> ->].
  change (step_ (SendSettled (length pre) r0 now) s)
    with (resumeApprovalRequested String_of_number (length pre) r0 now s).
  destruct (resume_last pre task r0 now s Hsus) as (He & Hs' & _).
  unfold nonLog in *. rewrite List.filter_app, He. unfold nextSend.
  destruct (sus_rest task) as [|a rest] eqn:Hrest.
  - destruct settles; [|discriminate]. by split.
  - destruct (IH _ _ Hs') as [IHe IHs]; [cbn in Hlen |- *; lia|].
    cbv zeta in IHe, IHs. cbn [sus_messageText sus_request sus_rest] in IHe.
    by rewrite IHe, IHs.
Qed.

(** X21: every approver is sent the prompt of an accepted request, once
    and in the order of the configuration, whether the sends before
    succeed or fail; when the last send has settled the activation is
    over. *)
Theorem every_approver_is_notified (s : State) (req : ExecApprovalRequest) (now : Z)
    (edit : Outcome) (settles : list (SendOutcome * Z)) :
  gatewayClient s = true ->
  shouldHandle RegExp RegExp_new RegExp_test config req = Normal true ->
  length settles = length (approvers_or_empty config) ->
  let r := run RegExp RegExp_new RegExp_test String_of_number config
             (OnEvent (ExecApprovalRequestedEvent req) now edit
              :: map (fun x => SendSettled (length (suspended s)) (fst x) (snd x)) settles)
             s in
  nonLog (emitted r)
  = map (fun a => SendMessage (String_ a) (ExecApprovalMessage req now)
                    (buildInlineKeyboard (req_id req)))
      (approvers_or_empty config)
  /\ suspended (after r) = suspended s.
Proof.
  intros Hc Hsh Hlen.
  pose proof (shouldHandle_approvers RegExp RegExp_new RegExp_test config req Hsh) as Happ.
  destruct (approvers_or_empty config) as [|a rest] eqn:Hl.
  { unfold approvers_or_empty in Hl. destruct (approvers config) as [[|]|]; discriminate. }
  cbv zeta.
  destruct (run_cons (OnEvent (ExecApprovalRequestedEvent req) now edit)
              (map (fun x => SendSettled (length (suspended s)) (fst x) (snd x)) settles) s)
    as [-> ->].
  set (s1 := after (step_ _ s)).
  set (e1 := emitted (step_ _ s)).
  assert (Hs1 : suspended s1
                = suspended s ++ [{| sus_request := req;
                                     sus_messageText := ExecApprovalMessage req now;
                                     sus_chatId := String_ a; sus_rest := rest |}]).
  { subst s1. run_handler. rewrite Hc. cbn. rewrite Hsh. cbn. by rewrite Hl. }
  assert (He1 : nonLog e1 = [SendMessage (String_ a) (ExecApprovalMessage req now)
                               (buildInlineKeyboard (req_id req))]).
  { subst e1. run_handler. rewrite Hc. cbn. rewrite Hsh. cbn. by rewrite Hl. }
  destruct (run_sends_to_the_rest (suspended s) settles _ s1 Hs1) as [He Hs'];
    [cbn in Hlen |- *; lia|].
  unfold nonLog in *. rewrite List.filter_app, He1, He, Hs'. by split.
Qed.

End TransitionFacts.

Lemma short_ids_map_to_cached_requests_witness :
  let s := after (Example.runWith Example.oneApprover Example.twoRequestsOnePrefix) in
  "abc12345" = Js.slice0 8 "abc12345-ffff-0000"
  /\ exists req, requestCache s !! "abc12345-ffff-0000" = Some req
               /\ req_id req = "abc12345-ffff-0000".
Proof.
  intros s.
  apply (short_ids_map_to_cached_requests string Example.RegExp_new Example.RegExp_test
           Example.String_of_number Example.oneApprover s "abc12345" "abc12345-ffff-0000").
  - apply (reachable_run string Example.RegExp_new Example.RegExp_test
             Example.String_of_number Example.oneApprover
             Example.twoRequestsOnePrefix initial).
    apply reachable_initial.
  - reflexivity.
Defined.

Lemma stopped_handler_ignores_callbacks_witness :
  let s := after (Example.runWith Example.oneApprover (Example.notifiedOne ++ [CallStop])) in
  value (handleCallbackQuery Example.String_of_number Example.oneApprover
           "abc12345" AllowOnce (Some "123") Fulfilled s) = false.
Proof.
  intros s.
  refine (proj1 (stopped_handler_ignores_callbacks string Example.RegExp_new
    Example.RegExp_test Example.String_of_number Example.oneApprover
    s "abc12345" AllowOnce (Some "123") Fulfilled _ eq_refl)).
  apply (reachable_run string Example.RegExp_new Example.RegExp_test
           Example.String_of_number Example.oneApprover
           (Example.notifiedOne ++ [CallStop]) initial).
  apply reachable_initial.
Defined.

Lemma messages_go_to_approvers_witness :
  let s := after (Example.runWith Example.twoApprovers Example.notifiedBoth) in
  addressedToApprover Example.String_of_number Example.twoApprovers
    (EditMessageText "456" 12
       (ResolvedMessage Example.requestA AllowOnce (Some "operator")) []).
Proof.
  intros s.
  refine (messages_go_to_approvers string Example.RegExp_new Example.RegExp_test
    Example.String_of_number Example.twoApprovers s
    (OnEvent (ExecApprovalResolvedEvent Example.resolvedA) 2000 Fulfilled)
    (EditMessageText "456" 12
       (ResolvedMessage Example.requestA AllowOnce (Some "operator")) []) _ _).
  - apply (reachable_run string Example.RegExp_new Example.RegExp_test
             Example.String_of_number Example.twoApprovers Example.notifiedBoth initial).
    apply reachable_initial.
  - vm_compute. right. by left.
Defined.

Lemma disabled_handler_is_inert_witness :
  let disabled :=
    {| enabled := false; approvers := Some [ApproverStr "123"];
       agentFilter := None; sessionFilter := None |} in
  let s := after (run string Example.RegExp_new Example.RegExp_test
                    Example.String_of_number disabled [CallStart] initial) in
  nonLog (emitted (step string Example.RegExp_new Example.RegExp_test
                     Example.String_of_number disabled
                     (OnEvent (ExecApprovalRequestedEvent Example.requestA) 1000 Fulfilled)
                     s)) = [].
Proof.
  intros disabled s.
  refine (proj2 (disabled_handler_is_inert string Example.RegExp_new Example.RegExp_test
            Example.String_of_number disabled s
            (OnEvent (ExecApprovalRequestedEvent Example.requestA) 1000 Fulfilled)
            (or_introl eq_refl) _)).
  apply (reachable_run string Example.RegExp_new Example.RegExp_test
           Example.String_of_number disabled [CallStart] initial).
  apply reachable_initial.
Defined.

Lemma recorded_timeout_is_silent_witness :
  let s := after (Example.runWith Example.oneApprover Example.notifiedOne) in
  fireTimeout 0 Fulfilled (after (handleApprovalResolved Example.resolvedA Fulfilled s))
  = ran tt (after (handleApprovalResolved Example.resolvedA Fulfilled s)) [].
Proof.
  intros s.
  exact (recorded_timeout_is_silent_after_resolution s Example.resolvedA Fulfilled Fulfilled
           {| telegramMessageId := 11; telegramChatId := "123"; timeoutId := 0 |} eq_refl).
Defined.

Lemma button_resolves_its_request_witness :
  let s := after (Example.runWith Example.oneApprover [CallStart]) in
  let s' := after (handleApprovalRequested string Example.RegExp_new Example.RegExp_test
                     Example.String_of_number Example.oneApprover
                     Example.requestA 1000 s) in
  exists shortId action,
    parseExecApprovalCallbackData (JsStr "ea:abc12345:d") = Some (shortId, action)
    /\ gatewayRequests
         (emitted (handleCallbackQuery Example.String_of_number Example.oneApprover
                     shortId action (Some "123") Fulfilled s'))
       = [GatewayRequest "abc12345-6789-def0" action].
Proof.
  intros s s'.
  apply (button_resolves_its_request string Example.RegExp_new Example.RegExp_test
           Example.String_of_number Example.oneApprover s Example.requestA 1000
           (ApproverStr "123") "ea:abc12345:d" Fulfilled).
  - reflexivity.
  - reflexivity.
  - reflexivity.
  - reflexivity.
  - by left.
  - right; right; by left.
Defined.

Lemma button_of_earlier_request_witness :
  let s := after (Example.runWith Example.oneApprover [CallStart]) in
  let s' := after (handleApprovalRequested string Example.RegExp_new Example.RegExp_test
                     Example.String_of_number Example.oneApprover Example.requestB 1002
                     (after (handleApprovalRequested string Example.RegExp_new
                               Example.RegExp_test Example.String_of_number
                               Example.oneApprover Example.requestA 1000 s))) in
  exists shortId action,
    parseExecApprovalCallbackData (JsStr "ea:abc12345:o") = Some (shortId, action)
    /\ gatewayRequests
         (emitted (handleCallbackQuery Example.String_of_number Example.oneApprover
                     shortId action (Some "123") Fulfilled s'))
       = [GatewayRequest "abc12345-ffff-0000" action].
Proof.
  intros s s'.
  apply (button_of_earlier_request_resolves_later string Example.RegExp_new
           Example.RegExp_test Example.String_of_number Example.oneApprover s
           Example.requestA Example.requestB 1000 1002
           (ApproverStr "123") "ea:abc12345:o" Fulfilled).
  - reflexivity.
  - reflexivity.
  - reflexivity.
  - reflexivity.
  - reflexivity.
  - reflexivity.
  - reflexivity.
  - by left.
  - by left.
Defined.

Lemma single_approver_round_trip_witness :
  let s := after (Example.runWith Example.oneApprover [CallStart]) in
  let r := run string Example.RegExp_new Example.RegExp_test Example.String_of_number
             Example.oneApprover
             [OnEvent (ExecApprovalRequestedEvent Example.requestA) 1000 Fulfilled;
              SendSettled 0 (SendFulfilled (Some 11%Z)) 1001;
              OnEvent (ExecApprovalResolvedEvent Example.resolvedA) 2000 Fulfilled] s in
  timers (after r) = timers s
  /\ nonLog (emitted r)
     = [SendMessage "123" (ExecApprovalMessage Example.requestA 1000)
          (buildInlineKeyboard "abc12345-6789-def0");
        EditMessageText "123" 11
          (ResolvedMessage Example.requestA AllowOnce (Some "operator")) []].
Proof.
  intros s r.
  destruct (single_approver_round_trip string Example.RegExp_new Example.RegExp_test
              Example.String_of_number Example.oneApprover s Example.requestA
              Example.resolvedA (ApproverStr "123") 11 1000 1001 2000 Fulfilled Fulfilled)
    as [_ [_ [_ [Ht [_ He]]]]].
  - apply (reachable_run string Example.RegExp_new Example.RegExp_test
             Example.String_of_number Example.oneApprover [CallStart] initial).
    apply reachable_initial.
  - reflexivity.
  - reflexivity.
  - reflexivity.
  - lia.
  - reflexivity.
  - split; [exact Ht | exact He].
Defined.

(** ** Logger: error-spike alerts *)

Section LoggerFacts.

Variable LoggingAlertConfig : Type.
Variable alert_enabled : LoggingAlertConfig -> bool.
Variable alert_threshold : LoggingAlertConfig -> option Z.
Variable alert_windowSeconds : LoggingAlertConfig -> option Z.
Variable alert_cooldownSeconds : LoggingAlertConfig -> option Z.
Variable getRotatedPath : string -> Z -> string.

Local Abbreviation LState := (Logger.LoggerState LoggingAlertConfig).
Local Abbreviation track :=
  (Logger.trackErrorAndCheckAlert LoggingAlertConfig alert_enabled alert_threshold
     alert_windowSeconds alert_cooldownSeconds).
Local Abbreviation times :=
  (Logger.alertTimes LoggingAlertConfig alert_enabled alert_threshold
     alert_windowSeconds alert_cooldownSeconds).
Local Abbreviation transport :=
  (Logger.fileTransport LoggingAlertConfig alert_enabled alert_threshold
     alert_windowSeconds alert_cooldownSeconds getRotatedPath).
Local Abbreviation windowMs := (Logger.windowMs_of LoggingAlertConfig alert_windowSeconds).
Local Abbreviation cooldownMs :=
  (Logger.cooldownMs_of LoggingAlertConfig alert_cooldownSeconds).
Local Abbreviation threshold := (Logger.threshold_of LoggingAlertConfig alert_threshold).

(** On times in the order of the clock, the loop that drops old times
    keeps exactly those that are not before the cutoff. *)
Lemma dropOld_ascending (cutoff : Z) (ts : list Z) :
  Logger.ascending ts ->
  Logger.dropOld cutoff ts = List.filter (fun t => (cutoff <=? t)%Z) ts.
Proof.
  induction ts as [|t ts IH]; [reflexivity|]. intros [Hall Hasc]. cbn [Logger.dropOld List.filter].
  destruct (Z.ltb_spec t cutoff) as [Hlt|Hge].
  - destruct (Z.leb_spec cutoff t); [lia | by apply IH].
  - destruct (Z.leb_spec cutoff t); [|lia]. f_equal.
    clear IH Hasc. induction ts as [|u ts IHts]; [reflexivity|].
    inversion Hall as [|? ? Hu Hts]; subst. cbn [List.filter].
    destruct (Z.leb_spec cutoff u); [|lia]. f_equal. by apply IHts.
Qed.

Lemma track_fields (now : Z) (st : LState) :
  Logger.alertConfig _ (track now st).2 = Logger.alertConfig _ st
  /\ Logger.currentLogFile _ (track now st).2 = Logger.currentLogFile _ st
  /\ Logger.currentFileSize _ (track now st).2 = Logger.currentFileSize _ st
  /\ Logger.currentRotationIndex _ (track now st).2 = Logger.currentRotationIndex _ st.
Proof.
  unfold Logger.trackErrorAndCheckAlert.
  destruct (Logger.alertConfig _ st) as [cfg|] eqn:Hcfg; [|by cbn; rewrite Hcfg].
  destruct (alert_enabled cfg); cbn [negb]; [|by cbn; rewrite Hcfg].
  by destruct (_ && _).
Qed.

Lemma track_window (now : Z) (st : LState) (cfg : LoggingAlertConfig) :
  Logger.alertConfig _ st = Some cfg ->
  alert_enabled cfg = true ->
  Logger.ascending (Logger.errorTimestamps _ st ++ [now]) ->
  Logger.errorTimestamps _ (track now st).2
  = List.filter (fun t => (now - windowMs cfg <=? t)%Z) (Logger.errorTimestamps _ st ++ [now])
  /\ Logger.ascending (Logger.errorTimestamps _ (track now st).2).
Proof.
  intros Hcfg Hen Hasc.
  assert (E : Logger.errorTimestamps _ (track now st).2
              = Logger.dropOld (now - windowMs cfg) (Logger.errorTimestamps _ st ++ [now])).
  { unfold Logger.trackErrorAndCheckAlert. rewrite Hcfg, Hen. cbn [negb].
    by destruct (_ && _). }
  rewrite E, dropOld_ascending by exact Hasc. split; [reflexivity|].
  clear E. revert Hasc. generalize (Logger.errorTimestamps _ st ++ [now]).
  intros l. induction l as [|t l IH]; [done|]. intros [Hall Hasc]. cbn [List.filter].
  destruct (now - windowMs cfg <=? t)%Z; [|by apply IH].
  split; [|by apply IH]. rewrite Forall_forall in Hall |- *.
  intros x Hx. apply Hall. apply list_elem_of_In in Hx. apply list_elem_of_In.
  apply filter_In in Hx. tauto.
Qed.

(** X22: when the errors come in the order of the clock, an enabled
    configuration keeps exactly the error times of the last window, the
    present one included; the times stay in order. *)
Theorem error_window_is_exact (now : Z) (st : LState) (cfg : LoggingAlertConfig) :
  Logger.alertConfig _ st = Some cfg ->
  alert_enabled cfg = true ->
  Logger.ascending (Logger.errorTimestamps _ st ++ [now]) ->
  Logger.errorTimestamps _ (track now st).2
  = List.filter (fun t => (now - windowMs cfg <=? t)%Z) (Logger.errorTimestamps _ st ++ [now])
  /\ Logger.ascending (Logger.errorTimestamps _ (track now st).2).
Proof. exact (track_window now st cfg). Qed.

Lemma track_outcome (now : Z) (st : LState) :
  ((track now st).1 = true ->
   exists cfg,
     Logger.alertConfig _ st = Some cfg
     /\ alert_enabled cfg = true
     /\ (threshold cfg <= Z.of_nat (length (Logger.errorTimestamps _ (track now st).2)))%Z
     /\ (now - Logger.lastAlertSentAt _ st > cooldownMs cfg)%Z
     /\ Logger.lastAlertSentAt _ (track now st).2 = now)
  /\ ((track now st).1 = false ->
      Logger.lastAlertSentAt _ (track now st).2 = Logger.lastAlertSentAt _ st).
Proof.
  unfold Logger.trackErrorAndCheckAlert.
  destruct (Logger.alertConfig _ st) as [cfg|]; [|by split].
  destruct (alert_enabled cfg) eqn:Hen; cbn [negb]; [|by split].
  destruct (Z.geb_spec (Z.of_nat (length (Logger.dropOld (now - windowMs cfg)
              (Logger.errorTimestamps _ st ++ [now])))) (threshold cfg)) as [Hth|Hth];
    cbn [andb]; [|by split].
  destruct (Z.gtb_spec (now - Logger.lastAlertSentAt _ st) (cooldownMs cfg)) as [Hcd|Hcd];
    [|by split].
  split; [|discriminate]. intros _. exists cfg. cbn. repeat split; try done; lia.
Qed.

(** X23: when the errors come in the order of the clock, an alert means
    that at least the threshold of errors fell into the last window,
    the present one included, and that the last alert on record is more
    than the cooldown ago; the time of the alert is then recorded. *)
Theorem alert_means_error_spike (now : Z) (st : LState) (cfg : LoggingAlertConfig) :
  Logger.alertConfig _ st = Some cfg ->
  Logger.ascending (Logger.errorTimestamps _ st ++ [now]) ->
  (track now st).1 = true ->
  (threshold cfg
   <= Z.of_nat (length (List.filter (fun t => (now - windowMs cfg <=? t)%Z)
                          (Logger.errorTimestamps _ st ++ [now]))))%Z
  /\ (now - Logger.lastAlertSentAt _ st > cooldownMs cfg)%Z
  /\ Logger.lastAlertSentAt _ (track now st).2 = now.
Proof.
  intros Hcfg Hasc Halert.
  destruct (proj1 (track_outcome now st) Halert) as (cfg' & Hcfg' & Hen & Hth & Hcd & Hlast).
  assert (cfg' = cfg) as -> by congruence.
  destruct (track_window now st cfg Hcfg Hen Hasc) as [E _].
  rewrite E in Hth. by repeat split.
Qed.

(** X24: alerts keep their distance: in any series of error reports,
    each alert is more than the cooldown after the alert before it, and
    the first more than the cooldown after the last alert on record. *)
Theorem alerts_are_spaced (nows : list Z) (st : LState) (cfg : LoggingAlertConfig) :
  Logger.alertConfig _ st = Some cfg ->
  Logger.spaced (cooldownMs cfg) (Logger.lastAlertSentAt _ st) (times nows st).1.
Proof.
  revert st. induction nows as [|now nows IH]; intros st Hcfg; [done|].
  cbn [Logger.alertTimes].
  destruct (track now st) as [alert st'] eqn:Et.
  pose proof (track_fields now st) as [Hc' _]. rewrite Et in Hc'. cbn in Hc'.
  pose proof (track_outcome now st) as [Htrue Hfalse]. rewrite Et in Htrue, Hfalse.
  cbn in Htrue, Hfalse.
  specialize (IH st' (eq_trans Hc' Hcfg)).
  destruct (times nows st') as [ts st''] eqn:Ets. cbn in IH |- *.
  destruct alert.
  - destruct (Htrue eq_refl) as (cfg' & Hcfg' & _ & _ & Hgap & Hlast).
    assert (cfg' = cfg) as -> by congruence.
    cbn. rewrite Hlast in IH. by split.
  - by rewrite (Hfalse eq_refl) in IH.
Qed.

(** X25: without a configuration, or with one that is not enabled,
    error reports are not even recorded, and no alert is ever due. *)
Theorem disabled_alerts_record_nothing (nows : list Z) (st : LState) :
  match Logger.alertConfig _ st with
  | Some cfg => alert_enabled cfg = false
  | None => True
  end ->
  Logger.alertTimes LoggingAlertConfig alert_enabled alert_threshold
    alert_windowSeconds alert_cooldownSeconds nows st
  = ([], st).
Proof.
  intros Hoff. induction nows as [|now nows IH]; [reflexivity|].
  cbn [Logger.alertTimes].
  assert (track now st = (false, st)) as ->.
  { unfold Logger.trackErrorAndCheckAlert.
    destruct (Logger.alertConfig _ st) as [cfg|]; [by rewrite Hoff | reflexivity]. }
  by rewrite IH.
Qed.

(** ** Logger: size-based rotation *)

(** The two comparisons with a number exclude each other. *)
Lemma lt_number_ge_number (i : Z) (n : Logger.JsNumber) :
  Logger.lt_number i n = true -> Logger.ge_number i n = false.
Proof. destruct n; cbn; try discriminate; [|reflexivity]. by destruct (Qle_bool q (inject_Z i)). Qed.

Lemma ge_number_lt_number (i : Z) (n : Logger.JsNumber) :
  Logger.ge_number i n = true -> Logger.lt_number i n = false.
Proof. destruct n; cbn; try discriminate; [|reflexivity]. by intros ->. Qed.



(** X26: once the log is full it stays full: the transport writes
    nothing, counts no error towards an alert and leaves every variable
    as it is, whatever the line. *)
Theorem full_log_drops_everything (settings : Logger.ResolvedSettings)
    (lineBytes : option Z) (logLevel : option string) (now : Z) (appended : bool)
    (st : LState) :
  Logger.logFull _ settings st ->
  transport settings lineBytes logLevel now appended st = (st, []).
Proof.
  intros [Hidx Hsize]. unfold Logger.fileTransport.
  destruct lineBytes as [b|]; [|reflexivity].
  rewrite (ge_number_lt_number _ _ Hidx), andb_false_r, Hidx.
  destruct (Z.gtb_spec (Logger.currentFileSize _ st) (Logger.maxFileSize settings)); [|lia].
  reflexivity.
Qed.



(** X28: no line is lost before the last file is full: with a size limit
    that is not negative, a current file and a rotation index below the
    number of files allowed, a line that serializes and whose append
    returns is appended, to the current file when it fits and to the
    next rotated file otherwise, and counted in the size of that file. *)
Theorem line_is_written_while_rotation_is_possible (settings : Logger.ResolvedSettings)
    (b : Z) (logLevel : option string) (now : Z) (st : LState) (current : string) :
  (0 <= Logger.maxFileSize settings)%Z ->
  Logger.currentLogFile _ st = Some current ->
  Js.truthy current = true ->
  Js.truthy (getRotatedPath (Logger.file settings) (Logger.currentRotationIndex _ st + 1))
  = true ->
  Logger.lt_number (Logger.currentRotationIndex _ st) (Logger.maxFilesPerDay settings)
  = true ->
  let r := transport settings (Some b) logLevel now true st in
  if (Logger.currentFileSize _ st + b >? Logger.maxFileSize settings)%Z
  then hd_error r.2
       = Some (Logger.AppendFile
                 (getRotatedPath (Logger.file settings) (Logger.currentRotationIndex _ st + 1))
                 b)
       /\ Logger.currentFileSize _ r.1 = b
  else hd_error r.2 = Some (Logger.AppendFile current b)
       /\ Logger.currentFileSize _ r.1 = (Logger.currentFileSize _ st + b)%Z.
Proof.
  intros Hmax Hfile Hcur Hrot Hidx. cbv zeta. unfold Logger.fileTransport.
  rewrite Hfile. cbn [truthy_opt]. rewrite Hcur. cbn [andb].
  rewrite Hidx, andb_true_r.
  destruct (Z.gtb_spec (Logger.currentFileSize _ st + b) (Logger.maxFileSize settings))
    as [Hbig|Hfit]; cbn.
  - destruct (Z.gtb_spec 0 (Logger.maxFileSize settings)); [lia|]. rewrite andb_false_r.
    rewrite Hrot. cbn.
    destruct (Logger.isErrorLevel logLevel); [|by split].
    match goal with |- context [track now ?x] =>
      pose proof (track_fields now x) as (_ & _ & Hsz & _);
      destruct (track now x) as [[|] st3] end; cbn in Hsz |- *; by rewrite Hsz.
  - rewrite (lt_number_ge_number _ _ Hidx). cbn [andb].
    rewrite Hfile. cbn. rewrite Hcur.
    destruct (Logger.isErrorLevel logLevel); [|by split].
    match goal with |- context [track now ?x] =>
      pose proof (track_fields now x) as (_ & _ & Hsz & _);
      destruct (track now x) as [[|] st3] end; cbn in Hsz |- *; by rewrite Hsz.
Qed.

End LoggerFacts.

Lemma error_window_is_exact_witness :
  Logger.errorTimestamps _
    (Logger.trackErrorAndCheckAlert Logger.AlertConfig Logger.ac_enabled
       Logger.ac_threshold Logger.ac_windowSeconds Logger.ac_cooldownSeconds 1000000
       (Logger.exampleState 0 0 [900000; 999000; 999500]%Z (Some Logger.exampleAlerts))).2
  = [999000; 999500; 1000000]%Z.
Proof.
  refine (proj1 (error_window_is_exact Logger.AlertConfig Logger.ac_enabled
    Logger.ac_threshold Logger.ac_windowSeconds Logger.ac_cooldownSeconds 1000000
    (Logger.exampleState 0 0 [900000; 999000; 999500]%Z (Some Logger.exampleAlerts))
    Logger.exampleAlerts eq_refl eq_refl _)).
  cbn. repeat split; repeat constructor; lia.
Defined.

Lemma alert_means_error_spike_witness :
  let st := Logger.exampleState 0 0 [900000; 999000; 999500]%Z (Some Logger.exampleAlerts) in
  Logger.lastAlertSentAt _
    (Logger.trackErrorAndCheckAlert Logger.AlertConfig Logger.ac_enabled
       Logger.ac_threshold Logger.ac_windowSeconds Logger.ac_cooldownSeconds 1000000 st).2
  = 1000000%Z.
Proof.
  intros st.
  refine (proj2 (proj2 (alert_means_error_spike Logger.AlertConfig Logger.ac_enabled
    Logger.ac_threshold Logger.ac_windowSeconds Logger.ac_cooldownSeconds 1000000 st
    Logger.exampleAlerts eq_refl _ eq_refl))).
  cbn. repeat split; repeat constructor; lia.
Defined.

Lemma alerts_are_spaced_witness :
  Logger.spaced 300000 0
    (Logger.alertTimes Logger.AlertConfig Logger.ac_enabled Logger.ac_threshold
       Logger.ac_windowSeconds Logger.ac_cooldownSeconds
       [999000; 999500; 1000000; 1000100; 1400000; 1400001; 1400002]%Z
       (Logger.exampleState 0 0 [] (Some Logger.exampleAlerts))).1.
Proof.
  exact (alerts_are_spaced Logger.AlertConfig Logger.ac_enabled Logger.ac_threshold
           Logger.ac_windowSeconds Logger.ac_cooldownSeconds
           [999000; 999500; 1000000; 1000100; 1400000; 1400001; 1400002]%Z
           (Logger.exampleState 0 0 [] (Some Logger.exampleAlerts))
           Logger.exampleAlerts eq_refl).
Defined.

Lemma disabled_alerts_record_nothing_witness :
  Logger.alertTimes Logger.AlertConfig Logger.ac_enabled Logger.ac_threshold
    Logger.ac_windowSeconds Logger.ac_cooldownSeconds [1; 2; 3]%Z
    (Logger.exampleState 0 0 [] None)
  = ([], Logger.exampleState 0 0 [] None).
Proof.
  exact (disabled_alerts_record_nothing Logger.AlertConfig Logger.ac_enabled
           Logger.ac_threshold Logger.ac_windowSeconds Logger.ac_cooldownSeconds
           [1; 2; 3]%Z (Logger.exampleState 0 0 [] None) I).
Defined.

Lemma full_log_drops_everything_witness :
  Logger.fileTransport Logger.AlertConfig Logger.ac_enabled Logger.ac_threshold
    Logger.ac_windowSeconds Logger.ac_cooldownSeconds Logger.exampleRotatedPath
    Logger.exampleSettings (Some 80%Z) (Some "error") 5000 true
    (Logger.exampleState 160 3 [] (Some Logger.exampleAlerts))
  = (Logger.exampleState 160 3 [] (Some Logger.exampleAlerts), []).
Proof.
  apply (full_log_drops_everything Logger.AlertConfig Logger.ac_enabled
           Logger.ac_threshold Logger.ac_windowSeconds Logger.ac_cooldownSeconds
           Logger.exampleRotatedPath Logger.exampleSettings (Some 80%Z) (Some "error")
           5000 true (Logger.exampleState 160 3 [] (Some Logger.exampleAlerts))).
  split; [reflexivity | cbn; lia].
Defined.


Lemma line_is_written_witness :
  hd_error
    (Logger.fileTransport Logger.AlertConfig Logger.ac_enabled Logger.ac_threshold
       Logger.ac_windowSeconds Logger.ac_cooldownSeconds Logger.exampleRotatedPath
       Logger.exampleSettings (Some 80%Z) (Some "info") 5000 true
       (Logger.exampleState 80 0 [] None)).2
  = Some (Logger.AppendFile "/tmp/openclaw/test.log.1" 80).
Proof.
  refine (proj1 (line_is_written_while_rotation_is_possible Logger.AlertConfig
    Logger.ac_enabled Logger.ac_threshold Logger.ac_windowSeconds
    Logger.ac_cooldownSeconds Logger.exampleRotatedPath Logger.exampleSettings 80
    (Some "info") 5000 (Logger.exampleState 80 0 [] None) "/tmp/openclaw/test.log"
    _ eq_refl eq_refl eq_refl eq_refl)).
  cbn. lia.
Defined.

Lemma armed_delays_witness :
  (0 <= 58999)%Z.
Proof.
  refine (armed_delays_are_not_negative string Example.RegExp_new Example.RegExp_test
    Example.String_of_number Example.twoApprovers
    (after (Example.runWith Example.twoApprovers Example.notifiedBoth))
    0%nat "abc12345-6789-def0" 58999 _ eq_refl).
  apply (reachable_run string Example.RegExp_new Example.RegExp_test
           Example.String_of_number Example.twoApprovers Example.notifiedBoth initial).
  apply reachable_initial.
Defined.

Lemma every_approver_is_notified_witness :
  let s := after (Example.runWith Example.twoApprovers [CallStart]) in
  nonLog (emitted (run string Example.RegExp_new Example.RegExp_test
                     Example.String_of_number Example.twoApprovers
                     [OnEvent (ExecApprovalRequestedEvent Example.requestA) 1000 Fulfilled;
                      SendSettled 0 (SendRejected "ETELEGRAM") 1001;
                      SendSettled 0 (SendFulfilled (Some 12%Z)) 1002] s))
  = [SendMessage "123" (ExecApprovalMessage Example.requestA 1000)
       (buildInlineKeyboard "abc12345-6789-def0");
     SendMessage "456" (ExecApprovalMessage Example.requestA 1000)
       (buildInlineKeyboard "abc12345-6789-def0")].
Proof.
  intros s.
  refine (proj1 (every_approver_is_notified string Example.RegExp_new Example.RegExp_test
    Example.String_of_number Example.twoApprovers s Example.requestA 1000 Fulfilled
    [(SendRejected "ETELEGRAM", 1001%Z); (SendFulfilled (Some 12%Z), 1002%Z)]
    eq_refl eq_refl eq_refl)).
Defined.
